(** * SSZ hash-tree-root validation scripts of zeam

    Shallow embedding of [validate_beam_state_hash.py] and
    [debug_simple_hash.py].  Both scripts build sample SSZ values and hand
    them to [hash_tree_root], which they import from the leanSpec package.
    The scripts themselves are embedded from their source; the imported
    typed values and the Merkleization engine are modelled from the
    specification (sections 3, 4 and 7) and kept in modules of their own.

    Each script is embedded twice: first without its [print] calls, for
    what it returns and raises, then with them, for what it writes to
    standard output and for a [print] that the terminal refuses. *)

From Stdlib Require Import ZArith QArith String Ascii Bool Lia List.
From Stdlib Require Import Strings.Byte DecimalString.
Import ListNotations.
Local Open Scope Z_scope.

(** ** Errors and the result monad *)

(** The error taxonomy of section 7 of the specification. *)
Inductive SSZError : Type :=
| RangeError
| LengthMismatch
| SchemaViolation
| UnsupportedType.

Inductive Result (A : Type) : Type :=
| Ok (a : A)
| Err (e : SSZError).

Arguments Ok {A} a.
Arguments Err {A} e.

Definition bind {A B : Type} (r : Result A) (k : A -> Result B) : Result B :=
  match r with
  | Ok a => k a
  | Err e => Err e
  end.

Declare Scope result_scope.
Delimit Scope result_scope with result.
Notation "x <- e ;; k" := (bind e (fun x => k))
  (at level 61, e at next level, right associativity) : result_scope.
Local Open Scope result_scope.

Definition is_ok {A : Type} (r : Result A) : bool :=
  match r with Ok _ => true | Err _ => false end.

(** [map_result f l] runs [f] on the elements of [l] from left to right and
    stops at the first error, like a Python list comprehension whose body
    raises. *)
Fixpoint map_result {A B : Type} (f : A -> Result B) (l : list A)
  : Result (list B) :=
  match l with
  | [] => Ok []
  | a :: t => b <- f a ;; bs <- map_result f t ;; Ok (b :: bs)
  end.

(** ** Bytes *)

Definition bytes : Type := list byte.

Definition byte_to_Z (b : byte) : Z := Z.of_N (Byte.to_N b).

Definition byte_of_Z (z : Z) : byte :=
  match Byte.of_N (Z.to_N (z mod 256)) with
  | Some b => b
  | None => x00
  end.

Definition zero_bytes (n : nat) : bytes := repeat x00 n.

(** Python's [bytes.hex()]: two lowercase hexadecimal digits per byte. *)
Definition hex_digit (z : Z) : ascii :=
  nth (Z.to_nat z)
      (list_ascii_of_string "0123456789abcdef") "0"%char.

Fixpoint hex (b : bytes) : string :=
  match b with
  | [] => EmptyString
  | x :: t =>
      String (hex_digit (byte_to_Z x / 16))
        (String (hex_digit (byte_to_Z x mod 16)) (hex t))
  end.

(** Python's [bytes.fromhex], on strings of hexadecimal digit pairs. *)
Definition hex_value (c : ascii) : Z :=
  let n := Z.of_N (N_of_ascii c) in
  if (48 <=? n) && (n <=? 57) then n - 48
  else if (97 <=? n) && (n <=? 102) then n - 87
  else 0.

Fixpoint fromhex (s : string) : bytes :=
  match s with
  | String hi (String lo t) =>
      byte_of_Z (16 * hex_value hi + hex_value lo) :: fromhex t
  | _ => []
  end.

(** ** The hashing primitive *)

(** Modelled from the spec: the "fixed hashing primitive (two 32-byte inputs
    -> 32-byte output)" of section 2, which lives in the imported package and
    not in the repository.  The glossary names the scheme as SSZ (Simple
    Serialize), whose node hash is SHA-256 of the 64-byte concatenation of
    the two children; SHA-256 follows FIPS 180-4. *)
Module Sha256.

Definition modulus : Z := 2 ^ 32.

Definition add32 (a b : Z) : Z := (a + b) mod modulus.

Definition rotr (n x : Z) : Z :=
  (Z.lor (Z.shiftr x n) (Z.shiftl x (32 - n))) mod modulus.

Definition shr (n x : Z) : Z := Z.shiftr x n.

Definition not32 (x : Z) : Z := Z.lxor x (modulus - 1).

Definition Ch (x y z : Z) : Z :=
  Z.lxor (Z.land x y) (Z.land (not32 x) z).

Definition Maj (x y z : Z) : Z :=
  Z.lxor (Z.lxor (Z.land x y) (Z.land x z)) (Z.land y z).

Definition Sigma0 (x : Z) : Z :=
  Z.lxor (Z.lxor (rotr 2 x) (rotr 13 x)) (rotr 22 x).

Definition Sigma1 (x : Z) : Z :=
  Z.lxor (Z.lxor (rotr 6 x) (rotr 11 x)) (rotr 25 x).

Definition sigma0 (x : Z) : Z :=
  Z.lxor (Z.lxor (rotr 7 x) (rotr 18 x)) (shr 3 x).

Definition sigma1 (x : Z) : Z :=
  Z.lxor (Z.lxor (rotr 17 x) (rotr 19 x)) (shr 10 x).

(** The first sixty-four primes, by trial division. *)
Definition is_prime (n : Z) : bool :=
  (1 <? n) &&
  forallb (fun d => negb (n mod d =? 0))
          (map Z.of_nat (seq 2 (Z.to_nat n - 2))).

Definition primes : list Z :=
  Eval vm_compute in
    firstn 64 (filter is_prime (map Z.of_nat (seq 2 400))).

(** [floor_root k ok] is the greatest [r < 2^k] with [ok r], for a
    downward closed [ok]; the bits of [r] are fixed from the top. *)
Fixpoint floor_root (k : nat) (ok : Z -> bool) (acc : Z) : Z :=
  match k with
  | O => acc
  | S k' =>
      let c := acc + 2 ^ Z.of_nat k' in
      floor_root k' ok (if ok c then c else acc)
  end.

(** First 32 bits of the fractional part of the cube root of [p]. *)
Definition frac_cbrt (p : Z) : Z :=
  floor_root 36 (fun c => c * c * c <=? p * 2 ^ 96) 0 mod modulus.

(** First 32 bits of the fractional part of the square root of [p]. *)
Definition frac_sqrt (p : Z) : Z := Z.sqrt (p * 2 ^ 64) mod modulus.

Definition K : list Z := Eval vm_compute in map frac_cbrt primes.

Definition H0 : list Z := Eval vm_compute in map frac_sqrt (firstn 8 primes).

(** Big-endian conversions between bytes and words. *)
Fixpoint be_to_Z (acc : Z) (l : list Z) : Z :=
  match l with
  | [] => acc
  | b :: t => be_to_Z (acc * 256 + b) t
  end.

Definition word_bytes (w : Z) : list Z :=
  [w / 2 ^ 24 mod 256; w / 2 ^ 16 mod 256; w / 2 ^ 8 mod 256; w mod 256].

Definition u64_bytes (n : Z) : list Z :=
  word_bytes (n / modulus mod modulus) ++ word_bytes (n mod modulus).

(** Padding: a one bit, zeros up to 56 modulo 64, the bit length. *)
Definition pad (msg : list Z) : list Z :=
  let len := Z.of_nat (length msg) in
  let zeros := Z.to_nat ((55 - len) mod 64) in
  msg ++ [128] ++ repeat 0 zeros ++ u64_bytes (8 * len).

(** The message schedule, most recent word first. *)
Fixpoint extend (n : nat) (w : list Z) : list Z :=
  match n with
  | O => w
  | S n' =>
      let x :=
        add32 (add32 (sigma1 (nth 1 w 0)) (nth 6 w 0))
              (add32 (sigma0 (nth 14 w 0)) (nth 15 w 0)) in
      extend n' (x :: w)
  end.

Fixpoint words (n : nat) (l : list Z) : list Z :=
  match n with
  | O => []
  | S n' => be_to_Z 0 (firstn 4 l) :: words n' (skipn 4 l)
  end.

Definition schedule (block : list Z) : list Z :=
  rev (extend 48 (rev (words 16 block))).

Record state : Type := mkState {
  sa : Z; sb : Z; sc : Z; sd : Z; se : Z; sf : Z; sg : Z; sh : Z
}.

Definition round (s : state) (kw : Z * Z) : state :=
  let t1 :=
    add32 (add32 (add32 (sh s) (Sigma1 (se s)))
                 (add32 (Ch (se s) (sf s) (sg s)) (fst kw))) (snd kw) in
  let t2 := add32 (Sigma0 (sa s)) (Maj (sa s) (sb s) (sc s)) in
  mkState (add32 t1 t2) (sa s) (sb s) (sc s)
          (add32 (sd s) t1) (se s) (sf s) (sg s).

Definition compress (s : state) (block : list Z) : state :=
  let r := fold_left round (combine K (schedule block)) s in
  mkState (add32 (sa s) (sa r)) (add32 (sb s) (sb r))
          (add32 (sc s) (sc r)) (add32 (sd s) (sd r))
          (add32 (se s) (se r)) (add32 (sf s) (sf r))
          (add32 (sg s) (sg r)) (add32 (sh s) (sh r)).

Fixpoint blocks (n : nat) (s : state) (l : list Z) : state :=
  match n with
  | O => s
  | S n' => blocks n' (compress s (firstn 64 l)) (skipn 64 l)
  end.

Definition init : state :=
  mkState (nth 0 H0 0) (nth 1 H0 0) (nth 2 H0 0) (nth 3 H0 0)
          (nth 4 H0 0) (nth 5 H0 0) (nth 6 H0 0) (nth 7 H0 0).

Definition digest_words (s : state) : list Z :=
  [sa s; sb s; sc s; sd s; se s; sf s; sg s; sh s].

Definition sha256 (msg : bytes) : bytes :=
  let padded := pad (map byte_to_Z msg) in
  let s := blocks (length padded / 64) init padded in
  map byte_of_Z (flat_map word_bytes (digest_words s)).

Definition hash_nodes (a b : bytes) : bytes := sha256 (a ++ b).

End Sha256.

Definition bytes_of_string (s : string) : bytes :=
  map byte_of_ascii (list_ascii_of_string s).

(** ** The typed values and the Merkleization engine *)

(** Modelled from the spec: the typed SSZ values ([Container], [SSZList],
    [BaseBitlist], [Uint32], [Uint64], [Bytes32]) and [hash_tree_root], which
    the scripts import from the leanSpec package; none of that code is in the
    repository.  The definitions follow sections 3 (data model), 4.1, 4.2,
    4.4, 4.5 (contracts) and 7 (errors) of the specification. *)
Module SSZ.

(** *** Type descriptors (section 3) *)

#[local] Set Warnings "-register-all".

Inductive UintWidth : Type := W8 | W16 | W32 | W64 | W128 | W256.

Definition bit_width (w : UintWidth) : Z :=
  match w with
  | W8 => 8 | W16 => 16 | W32 => 32 | W64 => 64 | W128 => 128 | W256 => 256
  end.

(** A container class carries its name and its ordered field schema; a list
    class its element type and LIMIT; a bitlist class its LIMIT in bits. *)
Inductive SSZType : Type :=
| TUint (w : UintWidth)
| TByteVector (n : nat)
| TContainer (name : string) (fields : list (string * SSZType))
| TList (name : string) (elem : SSZType) (limit : Z)
| TBitlist (name : string) (limit : Z).

(** An instance remembers the class it was built from. *)
Inductive SSZValue : Type :=
| VUint (w : UintWidth) (n : Z)
| VBytes (n : nat) (data : bytes)
| VContainer (name : string) (schema : list (string * SSZType))
             (vals : list (string * SSZValue))
| VList (name : string) (elem : SSZType) (limit : Z) (data : list SSZValue)
| VBitlist (name : string) (limit : Z) (bits : list bool).

Definition type_of (v : SSZValue) : SSZType :=
  match v with
  | VUint w _ => TUint w
  | VBytes n _ => TByteVector n
  | VContainer name schema _ => TContainer name schema
  | VList name elem limit _ => TList name elem limit
  | VBitlist name limit _ => TBitlist name limit
  end.

Definition width_eqb (a b : UintWidth) : bool :=
  bit_width a =? bit_width b.

(** Identity of types: the same kind, the same class name and the same
    schema, field by field and in order. *)
Fixpoint type_eqb (a b : SSZType) {struct a} : bool :=
  match a, b with
  | TUint w, TUint w' => width_eqb w w'
  | TByteVector n, TByteVector n' => Nat.eqb n n'
  | TContainer name fs, TContainer name' fs' =>
      String.eqb name name' &&
      (fix fields_eqb (l : list (string * SSZType))
           (l' : list (string * SSZType)) {struct l} : bool :=
         match l, l' with
         | [], [] => true
         | (f, t) :: r, (f', t') :: r' =>
             String.eqb f f' && type_eqb t t' && fields_eqb r r'
         | _, _ => false
         end) fs fs'
  | TList name e lim, TList name' e' lim' =>
      String.eqb name name' && type_eqb e e' && (lim =? lim')
  | TBitlist name lim, TBitlist name' lim' =>
      String.eqb name name' && (lim =? lim')
  | _, _ => false
  end.

(** "a container is fixed-size iff every field is fixed-size; a list/bitlist
    is always variable-size regardless of element type" *)
Fixpoint is_fixed_size (t : SSZType) : bool :=
  match t with
  | TUint _ => true
  | TByteVector _ => true
  | TContainer _ fs =>
      (fix all_fixed (l : list (string * SSZType)) : bool :=
         match l with
         | [] => true
         | (_, ft) :: r => is_fixed_size ft && all_fixed r
         end) fs
  | TList _ _ _ => false
  | TBitlist _ _ => false
  end.

Definition is_basic (t : SSZType) : bool :=
  match t with TUint _ => true | _ => false end.

Definition is_composite (t : SSZType) : bool :=
  match t with TContainer _ _ => true | _ => false end.

(** *** Primitive codec (section 4.1) *)

Fixpoint le_bytes (n : nat) (v : Z) : bytes :=
  match n with
  | O => []
  | S n' => byte_of_Z (v mod 256) :: le_bytes n' (v / 256)
  end.

(** [encode value bit_width]: exactly [bit_width / 8] bytes, little-endian,
    zero-padded on the high end; [RangeError] when the value does not fit. *)
Definition encode (value bits : Z) : Result bytes :=
  if (0 <=? value) && (value <? 2 ^ bits)
  then Ok (le_bytes (Z.to_nat (bits / 8)) value)
  else Err RangeError.

Definition encode_fixed_bytes (value : bytes) (len : nat) : Result bytes :=
  if Nat.eqb (length value) len then Ok value else Err LengthMismatch.

Definition serialize_uint64_le (n : Z) : Result bytes := encode n 64.

(** *** Chunks *)

Definition chunk : Type := bytes.

Definition BYTES_PER_CHUNK : nat := 32.

Definition right_pad (b : bytes) : chunk :=
  b ++ zero_bytes (BYTES_PER_CHUNK - length b).

(** Split a byte string into 32-byte chunks, the last one right-padded
    with zero bytes.  Every step takes at least one byte, so the length of
    the input is enough fuel. *)
Fixpoint chunks_of (fuel : nat) (b : bytes) : list chunk :=
  match fuel with
  | O => []
  | S fuel' =>
      match b with
      | [] => []
      | _ :: _ =>
          right_pad (firstn BYTES_PER_CHUNK b)
          :: chunks_of fuel' (skipn BYTES_PER_CHUNK b)
      end
  end.

Definition pack (b : bytes) : list chunk := chunks_of (length b) b.

(** Bits are packed 8 per byte, least significant bit first, without a
    length marker. *)
Fixpoint bits_value (l : list bool) : Z :=
  match l with
  | [] => 0
  | b :: t => Z.b2z b + 2 * bits_value t
  end.

Fixpoint bits_to_bytes (fuel : nat) (l : list bool) : bytes :=
  match fuel with
  | O => []
  | S fuel' =>
      match l with
      | [] => []
      | _ :: _ =>
          byte_of_Z (bits_value (firstn 8 l))
          :: bits_to_bytes fuel' (skipn 8 l)
      end
  end.

Definition pack_bits (l : list bool) : list chunk :=
  pack (bits_to_bytes (length l) l).

(** [ceil_log2 n] is [ceil (log2 n)], and 0 when [n <= 1]. *)
Definition ceil_log2 (n : Z) : nat := Z.to_nat (Z.log2_up n).

Definition ceil_div (a b : Z) : Z := (a + b - 1) / b.

(** How many elements of a type share one chunk: integers are packed by
    their byte width, everything else contributes its own 32-byte root. *)
Definition elements_per_chunk (t : SSZType) : Z :=
  match t with
  | TUint w => Z.of_nat BYTES_PER_CHUNK / (bit_width w / 8)
  | _ => 1
  end.

(** "the type's declared capacity converted to chunk-count terms" *)
Definition list_chunk_limit (elem : SSZType) (limit : Z) : Z :=
  ceil_div limit (elements_per_chunk elem).

(** "the tree depth is computed from ceil(limit_in_bits / 256) chunks" *)
Definition bitlist_chunk_limit (limit : Z) : Z := ceil_div limit 256.

Section Engine.

(** The hashing primitive: two 32-byte inputs, one 32-byte output. *)
Variable hash_nodes : chunk -> chunk -> chunk.

(** *** Zero-hash table (section 3) *)

(** [Z[0]] is the all-zero chunk and [Z[i+1] = hash(Z[i], Z[i])]. *)
Fixpoint zero_hash (i : nat) : chunk :=
  match i with
  | O => zero_bytes BYTES_PER_CHUNK
  | S j => let z := zero_hash j in hash_nodes z z
  end.

(** *** Merkleizer (section 4.4) *)

(** One level of the bottom-up reduction: adjacent chunks are paired, and
    a single leftover pairs with the zero hash of that level. *)
Fixpoint hash_layer (level : nat) (cs : list chunk) : list chunk :=
  match cs with
  | [] => []
  | [l] => [hash_nodes l (zero_hash level)]
  | l :: r :: rest => hash_nodes l r :: hash_layer level rest
  end.

Fixpoint reduce (depth level : nat) (cs : list chunk) : list chunk :=
  match depth with
  | O => cs
  | S d => reduce d (S level) (hash_layer level cs)
  end.

(** The root of the tree with [2 ^ depth] leaf slots whose populated
    leaves are [cs]; the slots to the right of [cs] hold [Z[0]] and are
    never materialized. *)
Definition merkle_root (depth : nat) (cs : list chunk) : chunk :=
  match reduce depth 0 cs with
  | root :: _ => root
  | [] => zero_hash depth
  end.

(** Step 2 of section 4.4 to the letter: the chunk sequence is padded on
    the right with [Z[0]] entries until its length is [2 ^ depth], and
    only then reduced. *)
Definition merkle_root_materialized (depth : nat) (cs : list chunk)
  : chunk :=
  let padded := cs ++ repeat (zero_hash 0) (2 ^ depth - length cs) in
  match reduce depth 0 padded with
  | root :: _ => root
  | [] => zero_hash depth
  end.

(** Modelled from the spec: [merkleize chunks limit] of section 4.4, which
    is part of the imported package.  A chunk count above a given limit is
    the instance "exceeding its declared LIMIT" of section 7. *)
Definition merkleize (chunks : list chunk) (limit : option Z)
  : Result chunk :=
  let n := Z.of_nat (length chunks) in
  match limit with
  | Some lim =>
      if lim <? n then Err SchemaViolation
      else Ok (merkle_root (ceil_log2 lim) chunks)
  | None =>
      if n =? 0 then Ok (zero_hash 0)
      else Ok (merkle_root (ceil_log2 n) chunks)
  end.

(** Modelled from the spec: [merkleize_with_length_mixin] of section 4.4.
    The length is mixed in as the right sibling of the content root, padded
    to a full chunk. *)
Definition merkleize_with_length_mixin (chunks : list chunk) (limit : Z)
           (actual_length : Z) : Result chunk :=
  root <- merkleize chunks (Some limit) ;;
  len <- serialize_uint64_le actual_length ;;
  Ok (hash_nodes root (right_pad len)).

(** *** hash_tree_root (section 4.5) *)

(** Primitive or fixed-size byte vector, from its serialization. *)
Definition primitive_root (ser : bytes) : Result chunk :=
  if Nat.eqb (length ser) BYTES_PER_CHUNK then Ok ser
  else if Nat.ltb (length ser) BYTES_PER_CHUNK then Ok (right_pad ser)
  else merkleize (pack ser) None.

Definition serialize_basic (v : SSZValue) : Result bytes :=
  match v with
  | VUint w n => encode n (bit_width w)
  | _ => Err SchemaViolation
  end.

(** Modelled from the spec: [hash_tree_root] of section 4.5, the function
    both scripts import.  A primitive is rooted from its serialization, a
    container from the roots of its fields in declared order, a list or
    bitlist from its chunks, its chunk limit and its length. *)
Fixpoint hash_tree_root (v : SSZValue) : Result chunk :=
  match v with
  | VUint w n =>
      ser <- encode n (bit_width w) ;; primitive_root ser
  | VBytes len data =>
      ser <- encode_fixed_bytes data len ;; primitive_root ser
  | VContainer _ _ vals =>
      roots <-
        (fix field_roots (l : list (string * SSZValue))
           : Result (list chunk) :=
           match l with
           | [] => Ok []
           | (_, x) :: t =>
               r <- hash_tree_root x ;;
               rs <- field_roots t ;;
               Ok (r :: rs)
           end) vals ;;
      merkleize roots None
  | VList _ elem limit data =>
      chunks <-
        (if is_basic elem
         then sers <- map_result serialize_basic data ;;
              Ok (pack (concat sers))
         else
           (fix element_roots (l : list SSZValue) : Result (list chunk) :=
              match l with
              | [] => Ok []
              | x :: t =>
                  r <- hash_tree_root x ;;
                  rs <- element_roots t ;;
                  Ok (r :: rs)
              end) data) ;;
      merkleize_with_length_mixin
        chunks (list_chunk_limit elem limit) (Z.of_nat (length data))
  | VBitlist _ limit bits =>
      merkleize_with_length_mixin
        (pack_bits bits) (bitlist_chunk_limit limit)
        (Z.of_nat (length bits))
  end.

End Engine.

(** *** Construction (sections 4.2 and 7) *)

(** What a Python call passes to a class: an integer ([Uint64(0)]), a list
    ([Bytes32([0] * 32)], [SSZList(data=[...])]) or keyword arguments
    ([Container(field=value, ...)]). *)
Inductive Item : Type :=
| IInt (z : Z)
| IBool (b : bool)
| IValue (v : SSZValue).

Inductive Args : Type :=
| AInt (value : Z)
| AList (items : list Item)
| AFields (kwargs : list (string * SSZValue)).

Definition item_byte (i : Item) : Result byte :=
  match i with
  | IInt z => if (0 <=? z) && (z <? 256) then Ok (byte_of_Z z)
              else Err RangeError
  | _ => Err SchemaViolation
  end.

Definition item_bool (i : Item) : Result bool :=
  match i with
  | IBool b => Ok b
  | _ => Err SchemaViolation
  end.

Definition item_value (elem : SSZType) (i : Item) : Result SSZValue :=
  match i with
  | IValue v => if type_eqb (type_of v) elem then Ok v
                else Err SchemaViolation
  | _ => Err SchemaViolation
  end.

Fixpoint lookup (k : string) (kwargs : list (string * SSZValue))
  : option SSZValue :=
  match kwargs with
  | [] => None
  | (k', v) :: t => if String.eqb k k' then Some v else lookup k t
  end.

(** The values of the declared fields, in declared order; a missing field
    or a value of another type is a schema violation. *)
Fixpoint bind_fields (schema : list (string * SSZType))
         (kwargs : list (string * SSZValue))
  : Result (list (string * SSZValue)) :=
  match schema with
  | [] => Ok []
  | (f, t) :: rest =>
      match lookup f kwargs with
      | None => Err SchemaViolation
      | Some v =>
          if type_eqb (type_of v) t
          then vals <- bind_fields rest kwargs ;; Ok ((f, v) :: vals)
          else Err SchemaViolation
      end
  end.

Definition declared (schema : list (string * SSZType)) (k : string) : bool :=
  existsb (String.eqb k) (map fst schema).

(** Modelled from the spec: calling a class of the imported package
    (sections 4.2 and 7).  Every schema mismatch fails here, at
    construction. *)
Definition new (cls : SSZType) (args : Args) : Result SSZValue :=
  match cls, args with
  | TUint w, AInt value =>
      if (0 <=? value) && (value <? 2 ^ bit_width w)
      then Ok (VUint w value) else Err RangeError
  | TByteVector n, AList items =>
      data <- map_result item_byte items ;;
      if Nat.eqb (length data) n then Ok (VBytes n data)
      else Err LengthMismatch
  | TContainer name schema, AFields kwargs =>
      if forallb (fun kv => declared schema (fst kv)) kwargs
      then vals <- bind_fields schema kwargs ;;
           Ok (VContainer name schema vals)
      else Err SchemaViolation
  | TList name elem limit, AList items =>
      data <- map_result (item_value elem) items ;;
      if limit <? Z.of_nat (length data) then Err SchemaViolation
      else Ok (VList name elem limit data)
  | TBitlist name limit, AList items =>
      bits <- map_result item_bool items ;;
      if limit <? Z.of_nat (length bits) then Err SchemaViolation
      else Ok (VBitlist name limit bits)
  | _, _ => Err SchemaViolation
  end.

(** The declared fields of a container class, in declared order. *)
Definition fields_of (cls : SSZType) : list (string * SSZType) :=
  match cls with
  | TContainer _ fields => fields
  | _ => []
  end.

(** Attribute access on a container instance. *)
Definition field (v : SSZValue) (k : string) : option SSZValue :=
  match v with
  | VContainer _ _ vals => lookup k vals
  | _ => None
  end.

(** The invariants of section 3, checked through the whole value: an
    integer fits its width, a byte vector has its declared length, a
    container holds exactly its declared fields with values of the declared
    types, a list or bitlist stays within its LIMIT.  The length of a
    sequence also fits the 64-bit field it is mixed in with. *)
Fixpoint validated (v : SSZValue) : bool :=
  match v with
  | VUint w n => (0 <=? n) && (n <? 2 ^ bit_width w)
  | VBytes n data => Nat.eqb (length data) n
  | VContainer _ schema vals =>
      (fix fields_ok (s : list (string * SSZType))
           (l : list (string * SSZValue)) {struct l} : bool :=
         match s, l with
         | [], [] => true
         | (f, t) :: s', (f', x) :: l' =>
             String.eqb f f' && type_eqb (type_of x) t && validated x
             && fields_ok s' l'
         | _, _ => false
         end) schema vals
  | VList _ elem limit data =>
      (Z.of_nat (length data) <=? limit)
      && (Z.of_nat (length data) <? 2 ^ 64)
      && (fix elements_ok (l : list SSZValue) : bool :=
            match l with
            | [] => true
            | x :: l' =>
                type_eqb (type_of x) elem && validated x && elements_ok l'
            end) data
  | VBitlist _ limit bits =>
      (Z.of_nat (length bits) <=? limit)
      && (Z.of_nat (length bits) <? 2 ^ 64)
  end.

(** The classes the scripts import. *)
Definition Uint8 : SSZType := TUint W8.
Definition Uint32 : SSZType := TUint W32.
Definition Uint64 : SSZType := TUint W64.
Definition Bytes32 : SSZType := TByteVector 32.

End SSZ.

Import SSZ.
Local Open Scope string_scope.

(** How a script run ends: status 0 when the module body runs to its end,
    status 1 with a traceback when an exception escapes. *)
Inductive ProcessOutcome : Type :=
| Exit0
| Traceback (e : SSZError).

(** ** validate_beam_state_hash.py *)

Module validate_beam_state_hash.

(** Constants from the Zig implementation. *)
Definition VALIDATOR_REGISTRY_LIMIT : Z := Z.shiftl 1 12.
Definition HISTORICAL_ROOTS_LIMIT : Z := Z.shiftl 1 18.

Definition BeamStateConfig : SSZType :=
  TContainer "BeamStateConfig"
    [("num_validators", Uint32); ("genesis_time", Uint64)].

Definition BeamBlockHeader : SSZType :=
  TContainer "BeamBlockHeader"
    [("slot", Uint64); ("proposer_index", Uint32);
     ("parent_root", Bytes32); ("state_root", Bytes32);
     ("body_root", Bytes32)].

Definition Mini3SFCheckpoint : SSZType :=
  TContainer "Mini3SFCheckpoint" [("root", Bytes32); ("slot", Uint64)].

Definition JustifiedSlotsBitlist : SSZType :=
  TBitlist "JustifiedSlotsBitlist" HISTORICAL_ROOTS_LIMIT.

Definition JustificationsValidatorsBitlist : SSZType :=
  TBitlist "JustificationsValidatorsBitlist" VALIDATOR_REGISTRY_LIMIT.

Definition HistoricalBlockHashesList : SSZType :=
  TList "HistoricalBlockHashesList" Bytes32 HISTORICAL_ROOTS_LIMIT.

Definition JustificationsRootsList : SSZType :=
  TList "JustificationsRootsList" Bytes32 HISTORICAL_ROOTS_LIMIT.

Definition BeamState : SSZType :=
  TContainer "BeamState"
    [("config", BeamStateConfig);
     ("slot", Uint64);
     ("latest_block_header", BeamBlockHeader);
     ("latest_justified", Mini3SFCheckpoint);
     ("latest_finalized", Mini3SFCheckpoint);
     ("historical_block_hashes", HistoricalBlockHashesList);
     ("justified_slots", JustifiedSlotsBitlist);
     ("justifications_roots", JustificationsRootsList);
     ("justifications_validators", JustificationsValidatorsBitlist)].

(** The LIMIT attribute of a list or bitlist class. *)
Definition LIMIT (cls : SSZType) : option Z :=
  match cls with
  | TList _ _ limit => Some limit
  | TBitlist _ limit => Some limit
  | _ => None
  end.

(** [[0] * 32] *)
Definition zeros32 : list Item := repeat (IInt 0) 32.

Definition create_beam_state : Result SSZValue :=
  num_validators <- new Uint32 (AInt VALIDATOR_REGISTRY_LIMIT) ;;
  genesis_time <- new Uint64 (AInt 0) ;;
  config <- new BeamStateConfig
              (AFields [("num_validators", num_validators);
                        ("genesis_time", genesis_time)]) ;;
  slot <- new Uint64 (AInt 0) ;;
  proposer_index <- new Uint32 (AInt 0) ;;
  parent_root <- new Bytes32 (AList zeros32) ;;
  state_root <- new Bytes32 (AList zeros32) ;;
  body_root <- new Bytes32 (AList zeros32) ;;
  block_header <- new BeamBlockHeader
                    (AFields [("slot", slot);
                              ("proposer_index", proposer_index);
                              ("parent_root", parent_root);
                              ("state_root", state_root);
                              ("body_root", body_root)]) ;;
  root <- new Bytes32 (AList zeros32) ;;
  cp_slot <- new Uint64 (AInt 0) ;;
  checkpoint <- new Mini3SFCheckpoint
                  (AFields [("root", root); ("slot", cp_slot)]) ;;
  state_slot <- new Uint64 (AInt 0) ;;
  historical_block_hashes <- new HistoricalBlockHashesList (AList []) ;;
  justified_slots <- new JustifiedSlotsBitlist (AList []) ;;
  justifications_roots <- new JustificationsRootsList (AList []) ;;
  justifications_validators <-
    new JustificationsValidatorsBitlist (AList []) ;;
  new BeamState
    (AFields [("config", config);
              ("slot", state_slot);
              ("latest_block_header", block_header);
              ("latest_justified", checkpoint);
              ("latest_finalized", checkpoint);
              ("historical_block_hashes", historical_block_hashes);
              ("justified_slots", justified_slots);
              ("justifications_roots", justifications_roots);
              ("justifications_validators", justifications_validators)]).

(** The literal that [main] binds to [zig_hash]. *)
Definition zig_hash : string :=
  "933fc69092f542e467681ac6cf9dae4a616ba5ea9c3c61f93cbcaf0be3548e01".

Section Script.

(** [from lean_spec.subspecs.ssz.hash import hash_tree_root] *)
Variable hash_tree_root : SSZValue -> Result bytes.

Definition main : Result bool :=
  beam_state <- create_beam_state ;;
  hash_result <- hash_tree_root beam_state ;;
  let hash_hex := hex hash_result in
  if String.eqb hash_hex zig_hash then Ok true else Ok false.

(** [if __name__ == "__main__": main()]: the value of the call is an
    expression statement and is dropped. *)
Definition run : ProcessOutcome :=
  match main with
  | Ok _ => Exit0
  | Err e => Traceback e
  end.

End Script.

End validate_beam_state_hash.

(** ** debug_simple_hash.py *)

Module debug_simple_hash.

Definition SimpleTest : SSZType :=
  TContainer "SimpleTest" [("slot", Uint64); ("proposer_index", Uint32)].

Definition ConfigTest : SSZType :=
  TContainer "ConfigTest"
    [("num_validators", Uint32); ("genesis_time", Uint64)].

Definition BlockHeaderTest : SSZType :=
  TContainer "BlockHeaderTest"
    [("slot", Uint64); ("proposer_index", Uint32);
     ("parent_root", Bytes32); ("state_root", Bytes32);
     ("body_root", Bytes32)].

Definition CheckpointTest : SSZType :=
  TContainer "CheckpointTest" [("root", Bytes32); ("slot", Uint64)].

Definition zeros32 : list Item := repeat (IInt 0) 32.

Section Script.

Variable hash_tree_root : SSZValue -> Result bytes.

Definition test_simple_container : Result string :=
  slot <- new Uint64 (AInt 0) ;;
  proposer_index <- new Uint32 (AInt 0) ;;
  simple <- new SimpleTest
              (AFields [("slot", slot);
                        ("proposer_index", proposer_index)]) ;;
  hash_result <- hash_tree_root simple ;;
  Ok (hex hash_result).

Definition test_config : Result string :=
  num_validators <- new Uint32 (AInt 4096) ;;
  genesis_time <- new Uint64 (AInt 0) ;;
  config <- new ConfigTest
              (AFields [("num_validators", num_validators);
                        ("genesis_time", genesis_time)]) ;;
  hash_result <- hash_tree_root config ;;
  Ok (hex hash_result).

Definition test_block_header : Result string :=
  slot <- new Uint64 (AInt 0) ;;
  proposer_index <- new Uint32 (AInt 0) ;;
  parent_root <- new Bytes32 (AList zeros32) ;;
  state_root <- new Bytes32 (AList zeros32) ;;
  body_root <- new Bytes32 (AList zeros32) ;;
  header <- new BlockHeaderTest
              (AFields [("slot", slot);
                        ("proposer_index", proposer_index);
                        ("parent_root", parent_root);
                        ("state_root", state_root);
                        ("body_root", body_root)]) ;;
  hash_result <- hash_tree_root header ;;
  Ok (hex hash_result).

Definition test_checkpoint : Result string :=
  root <- new Bytes32 (AList zeros32) ;;
  slot <- new Uint64 (AInt 0) ;;
  checkpoint <- new CheckpointTest
                  (AFields [("root", root); ("slot", slot)]) ;;
  hash_result <- hash_tree_root checkpoint ;;
  Ok (hex hash_result).

Definition main : Result unit :=
  _ <- test_simple_container ;;
  _ <- test_config ;;
  _ <- test_block_header ;;
  _ <- test_checkpoint ;;
  Ok tt.

End Script.

End debug_simple_hash.

(** ** The engine the scripts run against *)

(** [hash_tree_root] over SHA-256 nodes. *)
Definition lean_spec_hash_tree_root : SSZValue -> Result bytes :=
  SSZ.hash_tree_root Sha256.hash_nodes.

(** ** The instances the scripts build *)

Definition zero_root : SSZValue := VBytes 32 (zero_bytes 32).

Definition simple_instance : SSZValue :=
  VContainer "SimpleTest" (fields_of debug_simple_hash.SimpleTest)
    [("slot", VUint W64 0); ("proposer_index", VUint W32 0)].

Definition config_fields : list (string * SSZValue) :=
  [("num_validators", VUint W32 4096); ("genesis_time", VUint W64 0)].

Definition header_fields : list (string * SSZValue) :=
  [("slot", VUint W64 0); ("proposer_index", VUint W32 0);
   ("parent_root", zero_root); ("state_root", zero_root);
   ("body_root", zero_root)].

Definition checkpoint_fields : list (string * SSZValue) :=
  [("root", zero_root); ("slot", VUint W64 0)].

Definition config_test_instance : SSZValue :=
  VContainer "ConfigTest" (fields_of debug_simple_hash.ConfigTest)
    config_fields.

Definition block_header_test_instance : SSZValue :=
  VContainer "BlockHeaderTest" (fields_of debug_simple_hash.BlockHeaderTest)
    header_fields.

Definition checkpoint_test_instance : SSZValue :=
  VContainer "CheckpointTest" (fields_of debug_simple_hash.CheckpointTest)
    checkpoint_fields.

Definition zero_checkpoint : SSZValue :=
  VContainer "Mini3SFCheckpoint"
    (fields_of validate_beam_state_hash.Mini3SFCheckpoint) checkpoint_fields.

Definition beam_state_instance : SSZValue :=
  VContainer "BeamState" (fields_of validate_beam_state_hash.BeamState)
    [("config",
      VContainer "BeamStateConfig"
        (fields_of validate_beam_state_hash.BeamStateConfig) config_fields);
     ("slot", VUint W64 0);
     ("latest_block_header",
      VContainer "BeamBlockHeader"
        (fields_of validate_beam_state_hash.BeamBlockHeader) header_fields);
     ("latest_justified", zero_checkpoint);
     ("latest_finalized", zero_checkpoint);
     ("historical_block_hashes",
      VList "HistoricalBlockHashesList" Bytes32 262144 []);
     ("justified_slots", VBitlist "JustifiedSlotsBitlist" 262144 []);
     ("justifications_roots",
      VList "JustificationsRootsList" Bytes32 262144 []);
     ("justifications_validators",
      VBitlist "JustificationsValidatorsBitlist" 4096 [])].

(** The digest of [beam_state_instance] over SHA-256 nodes, and the bytes
    the literal of [main] spells. *)
Definition beam_state_digest : bytes :=
  Eval vm_compute in
    fromhex "dc936297bf91996914aad67aff4f1112b36c8809d008a5119b6c75eea473378b".

Definition zig_digest : bytes :=
  Eval vm_compute in fromhex validate_beam_state_hash.zig_hash.

(** ** The depth formula of the empty-collection property *)

(** Section 8 writes the depth of a list tree as
    [ceil(log2(LIMIT / elements_per_chunk))].  Read as a tree depth, that is
    the least natural number [d] with [LIMIT / elements_per_chunk <= 2 ^ d];
    the quotient is the rational one. *)
Definition ratio_below_pow2 (a b : Z) (d : nat) : Prop :=
  (inject_Z a / inject_Z b <= inject_Z (2 ^ Z.of_nat d))%Q.

Definition ceil_log2_ratio (a b : Z) (d : nat) : Prop :=
  ratio_below_pow2 a b d /\
  forall d' : nat, (d' < d)%nat -> ~ ratio_below_pow2 a b d'.

(** A list of well-formed chunks: every entry has 32 bytes. *)
Definition all_chunks (cs : list chunk) : Prop :=
  Forall (fun c => length c = BYTES_PER_CHUNK) cs.

(** The arguments of a constructor call hold validated instances only. *)
Definition args_validated (args : Args) : Prop :=
  match args with
  | AInt _ => True
  | AList items =>
      Forall (fun i => match i with
                       | IValue v => validated v = true
                       | _ => True
                       end) items
  | AFields kwargs => Forall (fun kv => validated (snd kv) = true) kwargs
  end.

(** The length field that is mixed in has 64 bits; a capacity stays below
    that. *)
Definition capacity_fits (cls : SSZType) : Prop :=
  match cls with
  | TList _ _ limit => limit < 2 ^ 64
  | TBitlist _ limit => limit < 2 ^ 64
  | _ => True
  end.

(** ** Standard output *)

(** The scripts write with [print] and end either at the end of the module
    body or with an exception that nothing catches.  A run is modelled as
    the list of the arguments of its [print] calls, in order, together with
    what the call did: it returned, or it raised.  Text is held as the bytes
    that reach the terminal (UTF-8). *)
Inductive Exception : Type :=
| LibraryError (e : SSZError)
| AttributeError (attr : string)
| UnicodeEncodeError (text : string).

Inductive Outcome (A : Type) : Type :=
| Returned (a : A)
| Raised (e : Exception).

Arguments Returned {A} a.
Arguments Raised {A} e.

Definition IO (A : Type) : Type := (list string * Outcome A)%type.

Definition io_ret {A : Type} (a : A) : IO A := ([], Returned a).

(** What was printed before an exception stays printed. *)
Definition io_bind {A B : Type} (m : IO A) (k : A -> IO B) : IO B :=
  match m with
  | (out, Returned a) => let (out', r) := k a in ((out ++ out')%list, r)
  | (out, Raised e) => (out, Raised e)
  end.

Declare Scope io_scope.
Delimit Scope io_scope with io.
Notation "x <- e ;; k" := (io_bind e (fun x => k))
  (at level 61, e at next level, right associativity) : io_scope.

Definition print (s : string) : IO unit := ([s], Returned tt).

(** A call into the imported package: its errors surface as exceptions. *)
Definition call {A : Type} (r : Result A) : IO A :=
  ([], match r with
       | Ok a => Returned a
       | Err e => Raised (LibraryError e)
       end).

(** [obj.attr] *)
Definition getattr (obj : SSZValue) (attr : string) : IO SSZValue :=
  ([], match field obj attr with
       | Some v => Returned v
       | None => Raised (AttributeError attr)
       end).

Definition stdout {A : Type} (m : IO A) : list string := fst m.

Definition outcome {A : Type} (m : IO A) : Outcome A := snd m.

(** The exit status of the interpreter: 0 at the end of the module body,
    1 after an uncaught exception. *)
Definition exit_status {A : Type} (m : IO A) : Z :=
  match outcome m with
  | Returned _ => 0
  | Raised _ => 1
  end.

(** The newline character of ["\n"]. *)
Definition nl : string := String "010"%char EmptyString.

(** U+2705 and U+274C, as their UTF-8 bytes. *)
Definition check_mark : string :=
  String (ascii_of_nat 226)
    (String (ascii_of_nat 156) (String (ascii_of_nat 133) EmptyString)).

Definition cross_mark : string :=
  String (ascii_of_nat 226)
    (String (ascii_of_nat 157) (String (ascii_of_nat 140) EmptyString)).

(** A Python [int] inside an f-string: its decimal digits. *)
Definition format_int (z : Z) : string :=
  NilZero.string_of_int (Z.to_int z).

(** ** validate_beam_state_hash.py, with its output *)

Module validate_beam_state_hash_io.

Import validate_beam_state_hash.
Local Open Scope io_scope.

Section Script.

(** [from lean_spec.subspecs.ssz.hash import hash_tree_root] *)
Variable hash_tree_root : SSZValue -> Result bytes.

(** How an integer instance of the imported package renders inside an
    f-string. *)
Variable format_uint : SSZValue -> string.

Definition SUCCESS : string :=
  nl ++ check_mark
  ++ " SUCCESS: Hash tree roots match! Our Zig SSZ implementation is correct.".

Definition MISMATCH : string :=
  nl ++ cross_mark ++ " MISMATCH: Hash tree roots differ.".

Definition main : IO bool :=
  _ <- print "=== BeamState Hash Tree Root Validation ===" ;;
  _ <- print
         "Creating BeamState with same structure as Zig implementation..." ;;
  beam_state <- call create_beam_state ;;
  _ <- print (nl ++ "BeamState structure:") ;;
  config <- getattr beam_state "config" ;;
  num_validators <- getattr config "num_validators" ;;
  config' <- getattr beam_state "config" ;;
  genesis_time <- getattr config' "genesis_time" ;;
  _ <- print ("  config: { num_validators: " ++ format_uint num_validators
              ++ ", genesis_time: " ++ format_uint genesis_time ++ " }") ;;
  slot <- getattr beam_state "slot" ;;
  _ <- print ("  slot: " ++ format_uint slot) ;;
  header <- getattr beam_state "latest_block_header" ;;
  header_slot <- getattr header "slot" ;;
  header' <- getattr beam_state "latest_block_header" ;;
  proposer_index <- getattr header' "proposer_index" ;;
  _ <- print ("  latest_block_header: { slot: " ++ format_uint header_slot
              ++ ", proposer_index: " ++ format_uint proposer_index
              ++ " }") ;;
  justified <- getattr beam_state "latest_justified" ;;
  justified_slot <- getattr justified "slot" ;;
  _ <- print ("  latest_justified: { root: [0x32], slot: "
              ++ format_uint justified_slot ++ " }") ;;
  finalized <- getattr beam_state "latest_finalized" ;;
  finalized_slot <- getattr finalized "slot" ;;
  _ <- print ("  latest_finalized: { root: [0x32], slot: "
              ++ format_uint finalized_slot ++ " }") ;;
  _ <- print ("  historical_block_hashes: empty list (capacity: "
              ++ format_int HISTORICAL_ROOTS_LIMIT ++ ")") ;;
  _ <- print ("  justified_slots: empty bitlist (capacity: "
              ++ format_int HISTORICAL_ROOTS_LIMIT ++ " bits)") ;;
  _ <- print ("  justifications_roots: empty list (capacity: "
              ++ format_int HISTORICAL_ROOTS_LIMIT ++ ")") ;;
  _ <- print ("  justifications_validators: empty bitlist (capacity: "
              ++ format_int VALIDATOR_REGISTRY_LIMIT ++ " bits)") ;;
  _ <- print (nl ++ "Computing hash tree root using leanSpec...") ;;
  hash_result <- call (hash_tree_root beam_state) ;;
  let hash_hex := hex hash_result in
  _ <- print (nl ++ "Python leanSpec hash tree root: " ++ hash_hex) ;;
  _ <- print
         "Zig implementation hash tree root: 933fc69092f542e467681ac6cf9dae4a616ba5ea9c3c61f93cbcaf0be3548e01" ;;
  if String.eqb hash_hex zig_hash
  then
    _ <- print SUCCESS ;;
    io_ret true
  else
    _ <- print MISMATCH ;;
    _ <- print "Difference in hash indicates potential issues with:" ;;
    _ <- print "  - Field ordering in struct vs Container" ;;
    _ <- print "  - Type encoding (endianness, bit width)" ;;
    _ <- print "  - Empty list/bitlist handling" ;;
    _ <- print "  - SSZ merkleization algorithm differences" ;;
    io_ret false.

End Script.

End validate_beam_state_hash_io.

(** ** debug_simple_hash.py, with its output *)

Module debug_simple_hash_io.

Import debug_simple_hash.
Local Open Scope io_scope.

Section Script.

Variable hash_tree_root : SSZValue -> Result bytes.

Definition test_simple_container : IO string :=
  _ <- print "=== Test 1: Simple Container ===" ;;
  slot <- call (new Uint64 (AInt 0)) ;;
  proposer_index <- call (new Uint32 (AInt 0)) ;;
  simple <- call (new SimpleTest
                    (AFields [("slot", slot);
                              ("proposer_index", proposer_index)])) ;;
  hash_result <- call (hash_tree_root simple) ;;
  _ <- print ("Simple container hash: " ++ hex hash_result) ;;
  io_ret (hex hash_result).

Definition test_config : IO string :=
  _ <- print (nl ++ "=== Test 2: Config Only ===") ;;
  num_validators <- call (new Uint32 (AInt 4096)) ;;
  genesis_time <- call (new Uint64 (AInt 0)) ;;
  config <- call (new ConfigTest
                    (AFields [("num_validators", num_validators);
                              ("genesis_time", genesis_time)])) ;;
  hash_result <- call (hash_tree_root config) ;;
  _ <- print ("Config hash: " ++ hex hash_result) ;;
  io_ret (hex hash_result).

Definition test_block_header : IO string :=
  _ <- print (nl ++ "=== Test 3: Block Header ===") ;;
  slot <- call (new Uint64 (AInt 0)) ;;
  proposer_index <- call (new Uint32 (AInt 0)) ;;
  parent_root <- call (new Bytes32 (AList zeros32)) ;;
  state_root <- call (new Bytes32 (AList zeros32)) ;;
  body_root <- call (new Bytes32 (AList zeros32)) ;;
  header <- call (new BlockHeaderTest
                    (AFields [("slot", slot);
                              ("proposer_index", proposer_index);
                              ("parent_root", parent_root);
                              ("state_root", state_root);
                              ("body_root", body_root)])) ;;
  hash_result <- call (hash_tree_root header) ;;
  _ <- print ("Block header hash: " ++ hex hash_result) ;;
  io_ret (hex hash_result).

Definition test_checkpoint : IO string :=
  _ <- print (nl ++ "=== Test 4: Checkpoint ===") ;;
  root <- call (new Bytes32 (AList zeros32)) ;;
  slot <- call (new Uint64 (AInt 0)) ;;
  checkpoint <- call (new CheckpointTest
                        (AFields [("root", root); ("slot", slot)])) ;;
  hash_result <- call (hash_tree_root checkpoint) ;;
  _ <- print ("Checkpoint hash: " ++ hex hash_result) ;;
  io_ret (hex hash_result).

Definition ANALYSIS : string := nl ++ "=== Analysis ===".

Definition main : IO unit :=
  _ <- print "Debugging hash tree root differences..." ;;
  _ <- test_simple_container ;;
  _ <- test_config ;;
  _ <- test_block_header ;;
  _ <- test_checkpoint ;;
  _ <- print ANALYSIS ;;
  _ <- print
         "These individual component hashes can help isolate where the difference occurs." ;;
  _ <- print
         "If any of these match between Zig and Python, we know that part is correct." ;;
  io_ret tt.

End Script.

End debug_simple_hash_io.

(** ** What the runs print *)

(** What [main] has printed when it reaches the call of [hash_tree_root]:
    the banner, the dump of the state and the announcement. *)
Definition structure_dump (format_uint : SSZValue -> string) : list string :=
  ["=== BeamState Hash Tree Root Validation ===";
   "Creating BeamState with same structure as Zig implementation...";
   nl ++ "BeamState structure:";
   "  config: { num_validators: " ++ format_uint (VUint W32 4096)
   ++ ", genesis_time: " ++ format_uint (VUint W64 0) ++ " }";
   "  slot: " ++ format_uint (VUint W64 0);
   "  latest_block_header: { slot: " ++ format_uint (VUint W64 0)
   ++ ", proposer_index: " ++ format_uint (VUint W32 0) ++ " }";
   "  latest_justified: { root: [0x32], slot: "
   ++ format_uint (VUint W64 0) ++ " }";
   "  latest_finalized: { root: [0x32], slot: "
   ++ format_uint (VUint W64 0) ++ " }";
   "  historical_block_hashes: empty list (capacity: 262144)";
   "  justified_slots: empty bitlist (capacity: 262144 bits)";
   "  justifications_roots: empty list (capacity: 262144)";
   "  justifications_validators: empty bitlist (capacity: 4096 bits)";
   nl ++ "Computing hash tree root using leanSpec..."].

Definition verdict_lines (matches : bool) : list string :=
  if matches
  then [validate_beam_state_hash_io.SUCCESS]
  else [validate_beam_state_hash_io.MISMATCH;
        "Difference in hash indicates potential issues with:";
        "  - Field ordering in struct vs Container";
        "  - Type encoding (endianness, bit width)";
        "  - Empty list/bitlist handling";
        "  - SSZ merkleization algorithm differences"].

(** The two digests, as [main] shows them. *)
Definition digest_lines (hash_result : bytes) : list string :=
  [nl ++ "Python leanSpec hash tree root: " ++ hex hash_result;
   "Zig implementation hash tree root: 933fc69092f542e467681ac6cf9dae4a616ba5ea9c3c61f93cbcaf0be3548e01"].



(** An integer instance rendered by its decimal digits. *)
Definition format_uint_decimal (v : SSZValue) : string :=
  match v with
  | VUint _ n => format_int n
  | _ => ""
  end.

(** The four calls of [hash_tree_root] in debug_simple_hash.py, in the order
    of the tests. *)
Definition debug_calls (htr : SSZValue -> Result bytes)
  : list (Result bytes) :=
  [htr simple_instance; htr config_test_instance;
   htr block_header_test_instance; htr checkpoint_test_instance].

(** The error of the first call that fails, if one does. *)
Fixpoint first_error {A : Type} (calls : list (Result A)) : option SSZError :=
  match calls with
  | [] => None
  | Ok _ :: rest => first_error rest
  | Err e :: _ => Some e
  end.

(** A test reports the digest [d] under [label]: the string it returns is
    what its last printed line shows after the label, it has two lowercase
    hexadecimal digits per byte of [d], and [d] is read back from it. *)
Definition reports (label : string) (d : bytes) (run : IO string) : Prop :=
  exists s : string,
    outcome run = Returned s
    /\ last (stdout run) "" = label ++ s
    /\ fromhex s = d
    /\ String.length s = (2 * length d)%nat
    /\ Forall (fun c => In c (list_ascii_of_string "0123456789abcdef"))
              (list_ascii_of_string s).

(** [len(collection)] of a list or bitlist instance. *)
Definition collection_length (v : SSZValue) : option nat :=
  match v with
  | VList _ _ _ data => Some (length data)
  | VBitlist _ _ bits => Some (length bits)
  | _ => None
  end.

(** A line of the dump describes the collection [v] truthfully: [v] is
    empty, and the capacity shown is the LIMIT of its class in decimal. *)
Definition describes (line before after : string) (v : SSZValue) : Prop :=
  collection_length v = Some 0%nat
  /\ exists limit, validate_beam_state_hash.LIMIT (type_of v) = Some limit
                   /\ line = before ++ format_int limit ++ after.

Local Open Scope Z_scope.

(** ** Empty collections of any class *)

(** The instance of a list or bitlist class that holds no element. *)
Definition empty_instance (cls : SSZType) : option SSZValue :=
  match cls with
  | TList name elem limit => Some (VList name elem limit [])
  | TBitlist name limit => Some (VBitlist name limit [])
  | _ => None
  end.

(** The depth of the tree of a list or bitlist class: [ceil(log2(n))] for
    its chunk limit [n]. *)
Definition collection_depth (cls : SSZType) : option nat :=
  match cls with
  | TList _ elem limit => Some (ceil_log2 (list_chunk_limit elem limit))
  | TBitlist _ limit => Some (ceil_log2 (bitlist_chunk_limit limit))
  | _ => None
  end.

(** A capacity is a natural number below [2 ^ 64]. *)
Definition capacity_in_range (cls : SSZType) : Prop :=
  match cls with
  | TList _ _ limit => 0 <= limit < 2 ^ 64
  | TBitlist _ limit => 0 <= limit < 2 ^ 64
  | _ => False
  end.

(** The zero hashes [Z[i], ..., Z[i + n]], each computed from the one
    before. *)
Fixpoint zero_table (h : chunk -> chunk -> chunk) (z : chunk) (n : nat)
  : list chunk :=
  z :: match n with
       | O => []
       | S k => zero_table h (h z z) k
       end.

(** The roots of the empty collections of depth 0 to 64 over SHA-256
    nodes. *)
Definition empty_roots : list chunk :=
  map (fun z => Sha256.hash_nodes z (right_pad (le_bytes 8 0)))
      (zero_table Sha256.hash_nodes (zero_bytes BYTES_PER_CHUNK) 64).

Fixpoint bytes_eqb (a b : bytes) : bool :=
  match a, b with
  | [], [] => true
  | x :: a', y :: b' => Byte.eqb x y && bytes_eqb a' b'
  | _, _ => false
  end.

Fixpoint distinctb (l : list bytes) : bool :=
  match l with
  | [] => true
  | x :: t => negb (existsb (bytes_eqb x) t) && distinctb t
  end.

(** ** The engine with its zero-hash table as state *)

(** Modelled from the spec: the zero-hash table of section 3 as the
    process-wide state that section 9 describes, "lazily computed" on first
    use and reused afterwards.  The table holds [Z[0], ..., Z[k-1]] for the
    levels asked for so far; a lookup above that computes the missing
    entries, each from the one before, and stores them.  Entries already
    stored are never written again.  Every routine of the engine that reads
    a zero hash threads the table. *)
Module SSZCached.

Definition Cache : Type := list chunk.

(** A computation that reads and fills the table and may fail. *)
Definition Cached (A : Type) : Type := Cache -> Result A * Cache.

Definition cret {A : Type} (a : A) : Cached A := fun table => (Ok a, table).

Definition cbind {A B : Type} (m : Cached A) (k : A -> Cached B)
  : Cached B :=
  fun table =>
    match m table with
    | (Ok a, table') => k a table'
    | (Err e, table') => (Err e, table')
    end.

Definition lift {A : Type} (r : Result A) : Cached A :=
  fun table => (r, table).

Declare Scope cached_scope.
Delimit Scope cached_scope with cached.
Notation "x <- e ;; k" := (cbind e (fun x => k))
  (at level 61, e at next level, right associativity) : cached_scope.
Local Open Scope cached_scope.

Section Engine.

Variable hash_nodes : chunk -> chunk -> chunk.

(** The entry that follows the last one stored. *)
Definition next_zero (table : Cache) : chunk :=
  match rev table with
  | [] => zero_bytes BYTES_PER_CHUNK
  | z :: _ => hash_nodes z z
  end.

Fixpoint populate (n : nat) (table : Cache) : Cache :=
  match n with
  | O => table
  | S k => populate k (table ++ [next_zero table])%list
  end.

Definition zero_hash (i : nat) : Cached chunk :=
  fun table =>
    match nth_error table i with
    | Some z => (Ok z, table)
    | None =>
        let table' := populate (S i - length table) table in
        (Ok (nth i table' (zero_bytes BYTES_PER_CHUNK)), table')
    end.

Fixpoint hash_layer (level : nat) (cs : list chunk) : Cached (list chunk) :=
  match cs with
  | [] => cret []
  | [l] => z <- zero_hash level ;; cret [hash_nodes l z]
  | l :: r :: rest =>
      t <- hash_layer level rest ;; cret (hash_nodes l r :: t)
  end.

Fixpoint reduce (depth level : nat) (cs : list chunk)
  : Cached (list chunk) :=
  match depth with
  | O => cret cs
  | S d => layer <- hash_layer level cs ;; reduce d (S level) layer
  end.

Definition merkle_root (depth : nat) (cs : list chunk) : Cached chunk :=
  top <- reduce depth 0 cs ;;
  match top with
  | root :: _ => cret root
  | [] => zero_hash depth
  end.

Definition merkleize (chunks : list chunk) (limit : option Z)
  : Cached chunk :=
  let n := Z.of_nat (length chunks) in
  match limit with
  | Some lim =>
      if lim <? n then lift (Err SchemaViolation)
      else merkle_root (ceil_log2 lim) chunks
  | None =>
      if n =? 0 then zero_hash 0
      else merkle_root (ceil_log2 n) chunks
  end.

Definition merkleize_with_length_mixin (chunks : list chunk) (limit : Z)
           (actual_length : Z) : Cached chunk :=
  root <- merkleize chunks (Some limit) ;;
  len <- lift (serialize_uint64_le actual_length) ;;
  cret (hash_nodes root (right_pad len)).

Definition primitive_root (ser : bytes) : Cached chunk :=
  if Nat.eqb (length ser) BYTES_PER_CHUNK then cret ser
  else if Nat.ltb (length ser) BYTES_PER_CHUNK then cret (right_pad ser)
  else merkleize (pack ser) None.

Fixpoint hash_tree_root (v : SSZValue) : Cached chunk :=
  match v with
  | VUint w n =>
      ser <- lift (encode n (bit_width w)) ;; primitive_root ser
  | VBytes len data =>
      ser <- lift (encode_fixed_bytes data len) ;; primitive_root ser
  | VContainer _ _ vals =>
      roots <-
        (fix field_roots (l : list (string * SSZValue))
           : Cached (list chunk) :=
           match l with
           | [] => cret []
           | (_, x) :: t =>
               r <- hash_tree_root x ;;
               rs <- field_roots t ;;
               cret (r :: rs)
           end) vals ;;
      merkleize roots None
  | VList _ elem limit data =>
      chunks <-
        (if is_basic elem
         then sers <- lift (map_result serialize_basic data) ;;
              cret (pack (concat sers))
         else
           (fix element_roots (l : list SSZValue) : Cached (list chunk) :=
              match l with
              | [] => cret []
              | x :: t =>
                  r <- hash_tree_root x ;;
                  rs <- element_roots t ;;
                  cret (r :: rs)
              end) data) ;;
      merkleize_with_length_mixin
        chunks (list_chunk_limit elem limit) (Z.of_nat (length data))
  | VBitlist _ limit bits =>
      merkleize_with_length_mixin
        (pack_bits bits) (bitlist_chunk_limit limit)
        (Z.of_nat (length bits))
  end.

(** A table that earlier lookups can have left behind: its entries are the
    zero hashes of the levels [0, 1, ...] in order.  The table of a fresh
    process is empty. *)
Definition well_formed (table : Cache) : Prop :=
  table = map (SSZ.zero_hash hash_nodes) (seq 0 (length table)).

End Engine.

End SSZCached.

(** The stateful computation [m] gives the result [r] from every
    well-formed table, and leaves a well-formed table that has lost
    nothing. *)
Definition computes (h : chunk -> chunk -> chunk) {A : Type}
           (m : SSZCached.Cached A) (r : Result A) : Prop :=
  forall table,
    SSZCached.well_formed h table ->
    exists table',
      m table = (r, table')
      /\ SSZCached.well_formed h table'
      /\ firstn (length table) table' = table.

(** ** The validation script on a terminal of a given encoding *)

(** [print] encodes its text for standard output and raises
    [UnicodeEncodeError] when the encoding of the terminal has no code for a
    character; nothing of that text is written then.  [can_encode] says which
    texts the terminal can take: every text for UTF-8, the texts of
    characters below 128 for ASCII. *)
Definition print_encoded (can_encode : string -> bool) (s : string)
  : IO unit :=
  if can_encode s then ([s], Returned tt)
  else ([], Raised (UnicodeEncodeError s)).

(** A text of characters below 128. *)
Fixpoint ascii_text (s : string) : bool :=
  match s with
  | EmptyString => true
  | String c t => (N_of_ascii c <? 128)%N && ascii_text t
  end.

Module validate_beam_state_hash_tty.

Import validate_beam_state_hash.
Import validate_beam_state_hash_io.
Local Open Scope io_scope.

Section Script.

Variable hash_tree_root : SSZValue -> Result bytes.
Variable format_uint : SSZValue -> string.

(** The builtin [print] of the interpreter that runs the script. *)
Variable print : string -> IO unit.

Definition main : IO bool :=
  _ <- print "=== BeamState Hash Tree Root Validation ===" ;;
  _ <- print
         "Creating BeamState with same structure as Zig implementation..." ;;
  beam_state <- call create_beam_state ;;
  _ <- print (nl ++ "BeamState structure:") ;;
  config <- getattr beam_state "config" ;;
  num_validators <- getattr config "num_validators" ;;
  config' <- getattr beam_state "config" ;;
  genesis_time <- getattr config' "genesis_time" ;;
  _ <- print ("  config: { num_validators: " ++ format_uint num_validators
              ++ ", genesis_time: " ++ format_uint genesis_time ++ " }") ;;
  slot <- getattr beam_state "slot" ;;
  _ <- print ("  slot: " ++ format_uint slot) ;;
  header <- getattr beam_state "latest_block_header" ;;
  header_slot <- getattr header "slot" ;;
  header' <- getattr beam_state "latest_block_header" ;;
  proposer_index <- getattr header' "proposer_index" ;;
  _ <- print ("  latest_block_header: { slot: " ++ format_uint header_slot
              ++ ", proposer_index: " ++ format_uint proposer_index
              ++ " }") ;;
  justified <- getattr beam_state "latest_justified" ;;
  justified_slot <- getattr justified "slot" ;;
  _ <- print ("  latest_justified: { root: [0x32], slot: "
              ++ format_uint justified_slot ++ " }") ;;
  finalized <- getattr beam_state "latest_finalized" ;;
  finalized_slot <- getattr finalized "slot" ;;
  _ <- print ("  latest_finalized: { root: [0x32], slot: "
              ++ format_uint finalized_slot ++ " }") ;;
  _ <- print ("  historical_block_hashes: empty list (capacity: "
              ++ format_int HISTORICAL_ROOTS_LIMIT ++ ")") ;;
  _ <- print ("  justified_slots: empty bitlist (capacity: "
              ++ format_int HISTORICAL_ROOTS_LIMIT ++ " bits)") ;;
  _ <- print ("  justifications_roots: empty list (capacity: "
              ++ format_int HISTORICAL_ROOTS_LIMIT ++ ")") ;;
  _ <- print ("  justifications_validators: empty bitlist (capacity: "
              ++ format_int VALIDATOR_REGISTRY_LIMIT ++ " bits)") ;;
  _ <- print (nl ++ "Computing hash tree root using leanSpec...") ;;
  hash_result <- call (hash_tree_root beam_state) ;;
  let hash_hex := hex hash_result in
  _ <- print (nl ++ "Python leanSpec hash tree root: " ++ hash_hex) ;;
  _ <- print
         "Zig implementation hash tree root: 933fc69092f542e467681ac6cf9dae4a616ba5ea9c3c61f93cbcaf0be3548e01" ;;
  if String.eqb hash_hex zig_hash
  then
    _ <- print SUCCESS ;;
    io_ret true
  else
    _ <- print MISMATCH ;;
    _ <- print "Difference in hash indicates potential issues with:" ;;
    _ <- print "  - Field ordering in struct vs Container" ;;
    _ <- print "  - Type encoding (endianness, bit width)" ;;
    _ <- print "  - Empty list/bitlist handling" ;;
    _ <- print "  - SSZ merkleization algorithm differences" ;;
    io_ret false.

End Script.

End validate_beam_state_hash_tty.

(** The first line of the verdict: the one with U+2705 or U+274C. *)
Definition verdict_line (matches : bool) : string :=
  if matches then validate_beam_state_hash_io.SUCCESS
  else validate_beam_state_hash_io.MISMATCH.

Local Open Scope string_scope.

(** * Properties *)

Local Open Scope Z_scope.

(** ** Induction through the nested lists of types and values *)

Section SSZType_induction.

Variable P : SSZType -> Prop.
Hypothesis P_uint : forall w, P (TUint w).
Hypothesis P_bytes : forall n, P (TByteVector n).
Hypothesis P_container :
  forall name fs, Forall (fun ft => P (snd ft)) fs -> P (TContainer name fs).
Hypothesis P_list : forall name e lim, P e -> P (TList name e lim).
Hypothesis P_bitlist : forall name lim, P (TBitlist name lim).

Fixpoint SSZType_nested_ind (t : SSZType) : P t :=
  match t with
  | TUint w => P_uint w
  | TByteVector n => P_bytes n
  | TContainer name fs =>
      P_container name fs
        ((fix all (l : list (string * SSZType))
            : Forall (fun ft => P (snd ft)) l :=
            match l with
            | [] => Forall_nil _
            | ft :: r => Forall_cons ft (SSZType_nested_ind (snd ft)) (all r)
            end) fs)
  | TList name e lim => P_list name e lim (SSZType_nested_ind e)
  | TBitlist name lim => P_bitlist name lim
  end.

End SSZType_induction.

Section SSZValue_induction.

Variable P : SSZValue -> Prop.
Hypothesis P_uint : forall w n, P (VUint w n).
Hypothesis P_bytes : forall n data, P (VBytes n data).
Hypothesis P_container :
  forall name schema vals,
    Forall (fun fv => P (snd fv)) vals -> P (VContainer name schema vals).
Hypothesis P_list :
  forall name e lim data, Forall P data -> P (VList name e lim data).
Hypothesis P_bitlist : forall name lim bits, P (VBitlist name lim bits).

Fixpoint SSZValue_nested_ind (v : SSZValue) : P v :=
  match v with
  | VUint w n => P_uint w n
  | VBytes n data => P_bytes n data
  | VContainer name schema vals =>
      P_container name schema vals
        ((fix all (l : list (string * SSZValue))
            : Forall (fun fv => P (snd fv)) l :=
            match l with
            | [] => Forall_nil _
            | fv :: r =>
                Forall_cons fv (SSZValue_nested_ind (snd fv)) (all r)
            end) vals)
  | VList name e lim data =>
      P_list name e lim data
        ((fix all (l : list SSZValue) : Forall P l :=
            match l with
            | [] => Forall_nil _
            | x :: r => Forall_cons x (SSZValue_nested_ind x) (all r)
            end) data)
  | VBitlist name lim bits => P_bitlist name lim bits
  end.

End SSZValue_induction.

(** ** Identity of types *)

Lemma width_eqb_eq (a b : UintWidth) : width_eqb a b = true -> a = b.
Proof. destruct a, b; simpl; intros H; try reflexivity; discriminate H. Qed.

Lemma type_eqb_eq (a : SSZType) : forall b, type_eqb a b = true -> a = b.
Proof.
  induction a using SSZType_nested_ind; intros [ | | name' fs' | | ] E;
    simpl in E; try discriminate E.
  - f_equal. now apply width_eqb_eq.
  - f_equal. now apply Nat.eqb_eq.
  - apply andb_prop in E. destruct E as [En Ef].
    apply String.eqb_eq in En. subst name'. f_equal.
    revert fs' Ef. induction H as [ | [f t] r Ht _ IH]; intros [ | [f' t'] r'] Ef;
      try discriminate Ef; try reflexivity.
    apply andb_prop in Ef. destruct Ef as [Ef Er].
    apply andb_prop in Ef. destruct Ef as [Ef Et].
    apply String.eqb_eq in Ef. simpl in Ht. apply Ht in Et. subst.
    f_equal. now apply IH.
  - apply andb_prop in E. destruct E as [E El].
    apply andb_prop in E. destruct E as [En Ee].
    apply String.eqb_eq in En. apply Z.eqb_eq in El. apply IHa in Ee.
    now subst.
  - apply andb_prop in E. destruct E as [En El].
    apply String.eqb_eq in En. apply Z.eqb_eq in El. now subst.
Qed.

(** ** Arithmetic of depths *)

Lemma ratio_le_iff (a b c : Z) :
  0 < b -> (inject_Z a / inject_Z b <= inject_Z c)%Q <-> a <= b * c.
Proof.
  intros Hb.
  assert (Hq : (inject_Z 0 < inject_Z b)%Q) by (rewrite <- Zlt_Qlt; exact Hb).
  change (inject_Z 0) with 0%Q in Hq.
  split; intros H.
  - apply (Qmult_le_compat_r _ _ (inject_Z b)) in H;
      [ | apply Qlt_le_weak; exact Hq ].
    rewrite Qmult_comm, Qmult_div_r in H
      by (intros E; rewrite E in Hq; discriminate Hq).
    rewrite <- inject_Z_mult in H. rewrite <- Zle_Qle in H. lia.
  - apply Qle_shift_div_r; [ exact Hq | ].
    rewrite <- inject_Z_mult. rewrite <- Zle_Qle. lia.
Qed.

Lemma elements_per_chunk_pos (t : SSZType) : 0 < elements_per_chunk t.
Proof. destruct t as [ [ ] | | | | ]; vm_compute; reflexivity. Qed.

Lemma ceil_div_le_iff (a b c : Z) : 0 < b -> ceil_div a b <= c <-> a <= b * c.
Proof.
  intros Hb. unfold ceil_div. split; intros H.
  - pose proof (Z.mul_succ_div_gt (a + b - 1) b Hb). nia.
  - assert ((a + b - 1) / b < c + 1); [ | lia ].
    apply Z.div_lt_upper_bound; lia.
Qed.

Lemma ceil_log2_least (n : Z) (d : nat) :
  n <= 2 ^ Z.of_nat d <-> (ceil_log2 n <= d)%nat.
Proof.
  unfold ceil_log2.
  destruct (Z.le_gt_cases n 1) as [Hn | Hn].
  - rewrite Z.log2_up_eqn0 by exact Hn. simpl. split; intros _; [ lia | ].
    assert (0 < 2 ^ Z.of_nat d) by (apply Z.pow_pos_nonneg; lia). lia.
  - pose proof (Z.log2_up_spec n Hn) as [Hlo Hhi].
    pose proof (Z.log2_up_nonneg n) as Hnn.
    split; intros H.
    + apply Nat2Z.inj_le. rewrite Z2Nat.id by exact Hnn.
      destruct (Z.le_gt_cases (Z.log2_up n) (Z.of_nat d)) as [ | Hgt ];
        [ assumption | ].
      assert (2 ^ Z.of_nat d <= 2 ^ Z.pred (Z.log2_up n))
        by (apply Z.pow_le_mono_r; lia).
      lia.
    + apply Nat2Z.inj_le in H. rewrite Z2Nat.id in H by exact Hnn.
      assert (2 ^ Z.log2_up n <= 2 ^ Z.of_nat d)
        by (apply Z.pow_le_mono_r; lia).
      lia.
Qed.

(** The depth the engine computes from the chunk limit is the depth of the
    formula. *)
Lemma list_depth_is_ceil_log2_ratio (t : SSZType) (limit : Z) :
  ceil_log2_ratio limit (elements_per_chunk t)
                  (ceil_log2 (list_chunk_limit t limit)).
Proof.
  pose proof (elements_per_chunk_pos t) as Hpos.
  assert (E : forall d, ratio_below_pow2 limit (elements_per_chunk t) d
                        <-> (ceil_log2 (list_chunk_limit t limit) <= d)%nat).
  { intros d. unfold ratio_below_pow2, list_chunk_limit.
    rewrite ratio_le_iff by exact Hpos.
    rewrite <- ceil_log2_least. rewrite ceil_div_le_iff by exact Hpos.
    reflexivity. }
  split.
  - apply E. lia.
  - intros d' Hlt Hd'. apply E in Hd'. lia.
Qed.

(** ** The result monad *)

Lemma bind_ok {A B : Type} (r : Result A) (k : A -> Result B) (a : A) :
  r = Ok a -> bind r k = k a.
Proof. intros ->. reflexivity. Qed.

Lemma map_result_ok {A B : Type} (f : A -> Result B) (g : A -> B)
      (l : list A) :
  Forall (fun a => f a = Ok (g a)) l -> map_result f l = Ok (map g l).
Proof.
  induction 1 as [ | a t Ha _ IH]; simpl; [ reflexivity | ].
  rewrite Ha. simpl. rewrite IH. reflexivity.
Qed.

(** ** Lists taken two elements at a time *)

Lemma list_pair_ind {A : Type} (P : list A -> Prop) :
  P [] -> (forall x, P [x]) -> (forall x y l, P l -> P (x :: y :: l)) ->
  forall l, P l.
Proof.
  intros Hnil Hone Hpair l.
  assert (H : P l /\ forall a, P (a :: l)); [ | apply H ].
  induction l as [ | b l [IH1 IH2]]; split; auto.
Qed.

(** ** Byte counts of the codec and of the packing *)

Lemma le_bytes_length (n : nat) (v : Z) : length (le_bytes n v) = n.
Proof. revert v. induction n; intros v; simpl; [ | rewrite IHn ]; reflexivity. Qed.

Lemma encode_in_range (v bits : Z) :
  0 <= v < 2 ^ bits ->
  encode v bits = Ok (le_bytes (Z.to_nat (bits / 8)) v).
Proof.
  intros [Hlo Hhi]. unfold encode.
  apply Z.leb_le in Hlo. apply Z.ltb_lt in Hhi. rewrite Hlo, Hhi. reflexivity.
Qed.

Lemma zero_bytes_length (n : nat) : length (zero_bytes n) = n.
Proof. apply repeat_length. Qed.

Lemma right_pad_length (b : bytes) :
  (length b <= BYTES_PER_CHUNK)%nat -> length (right_pad b) = BYTES_PER_CHUNK.
Proof.
  intros H. unfold right_pad. rewrite length_app, zero_bytes_length. lia.
Qed.

Lemma chunks_of_all_chunks (fuel : nat) (b : bytes) :
  all_chunks (chunks_of fuel b).
Proof.
  revert b. induction fuel as [ | fuel IH]; intros b; [ constructor | ].
  destruct b as [ | x b]; [ constructor | ].
  cbn [chunks_of]. constructor; [ | apply IH ].
  apply right_pad_length. apply firstn_le_length.
Qed.

Lemma chunks_of_nil (fuel : nat) : chunks_of fuel [] = [].
Proof. destruct fuel; reflexivity. Qed.

(** Packing [n] bytes takes at most [ceil (n / 32)] chunks. *)
Lemma chunks_of_count (fuel : nat) (b : bytes) :
  (BYTES_PER_CHUNK * length (chunks_of fuel b)
   <= length b + (BYTES_PER_CHUNK - 1))%nat.
Proof.
  revert b. induction fuel as [ | fuel IH]; intros b; [ simpl; lia | ].
  destruct b as [ | x b]; [ simpl; lia | ].
  cbn [chunks_of length]. specialize (IH (skipn BYTES_PER_CHUNK (x :: b))).
  rewrite length_skipn in IH. unfold BYTES_PER_CHUNK in *.
  cbn [length] in IH. lia.
Qed.

Lemma bits_to_bytes_count (fuel : nat) (l : list bool) :
  (8 * length (bits_to_bytes fuel l) <= length l + 7)%nat.
Proof.
  revert l. induction fuel as [ | fuel IH]; intros l; [ simpl; lia | ].
  destruct l as [ | x l]; [ simpl; lia | ].
  cbn [bits_to_bytes length]. specialize (IH (skipn 8 (x :: l))).
  rewrite length_skipn in IH. cbn [length] in IH. lia.
Qed.

(** ** The Merkleizer *)

Section EngineFacts.

Variable h : chunk -> chunk -> chunk.

Lemma reduce_nil (depth level : nat) : reduce h depth level [] = [].
Proof.
  revert level. induction depth as [ | d IH]; intros level; simpl;
    [ reflexivity | apply IH ].
Qed.

(** Without any chunk the root is the zero hash of the full depth. *)
Lemma merkleize_empty (lim : Z) :
  0 <= lim ->
  merkleize h [] (Some lim) = Ok (zero_hash h (ceil_log2 lim)).
Proof.
  intros Hlim. unfold merkleize. cbn [length Z.of_nat].
  destruct (Z.ltb_spec lim 0) as [Hneg | _]; [ lia | ].
  unfold merkle_root. rewrite reduce_nil. reflexivity.
Qed.

Hypothesis hash_length : forall a b, length (h a b) = BYTES_PER_CHUNK.

Lemma zero_hash_length (i : nat) : length (zero_hash h i) = BYTES_PER_CHUNK.
Proof.
  destruct i as [ | j]; cbn [zero_hash];
    [ apply zero_bytes_length | apply hash_length ].
Qed.

Lemma hash_layer_all_chunks (level : nat) (cs : list chunk) :
  all_chunks (hash_layer h level cs).
Proof.
  induction cs as [ | x | x y l IH] using list_pair_ind; cbn [hash_layer];
    repeat constructor; auto.
Qed.

Lemma reduce_all_chunks (depth level : nat) (cs : list chunk) :
  all_chunks cs -> all_chunks (reduce h depth level cs).
Proof.
  revert level cs. induction depth as [ | d IH]; intros level cs Hcs;
    simpl; [ exact Hcs | ].
  apply IH. apply hash_layer_all_chunks.
Qed.

Lemma merkle_root_length (depth : nat) (cs : list chunk) :
  all_chunks cs -> length (merkle_root h depth cs) = BYTES_PER_CHUNK.
Proof.
  intros Hcs. unfold merkle_root.
  pose proof (reduce_all_chunks depth 0 cs Hcs) as Hred.
  destruct (reduce h depth 0 cs) as [ | root rest].
  - apply zero_hash_length.
  - inversion Hred; assumption.
Qed.

Lemma merkleize_within_limit (cs : list chunk) (lim : Z) :
  all_chunks cs -> Z.of_nat (length cs) <= lim ->
  exists root, merkleize h cs (Some lim) = Ok root
               /\ length root = BYTES_PER_CHUNK.
Proof.
  intros Hcs Hlim. unfold merkleize.
  destruct (Z.ltb_spec lim (Z.of_nat (length cs))) as [Hover | _]; [ lia | ].
  eexists. split; [ reflexivity | now apply merkle_root_length ].
Qed.

Lemma merkleize_no_limit (cs : list chunk) :
  all_chunks cs ->
  exists root, merkleize h cs None = Ok root
               /\ length root = BYTES_PER_CHUNK.
Proof.
  intros Hcs. unfold merkleize.
  destruct (Z.of_nat (length cs) =? 0); eexists; (split; [ reflexivity | ]).
  - apply zero_hash_length.
  - now apply merkle_root_length.
Qed.

Lemma mixin_within_limit (cs : list chunk) (lim len : Z) :
  all_chunks cs -> Z.of_nat (length cs) <= lim -> 0 <= len < 2 ^ 64 ->
  exists root, merkleize_with_length_mixin h cs lim len = Ok root
               /\ length root = BYTES_PER_CHUNK.
Proof.
  intros Hcs Hlim Hlen. unfold merkleize_with_length_mixin.
  destruct (merkleize_within_limit cs lim Hcs Hlim) as [r [-> _]].
  unfold serialize_uint64_le. rewrite encode_in_range by exact Hlen.
  cbn [bind]. eexists. split; [ reflexivity | apply hash_length ].
Qed.

Lemma primitive_root_total (ser : bytes) :
  exists root, primitive_root h ser = Ok root
               /\ length root = BYTES_PER_CHUNK.
Proof.
  unfold primitive_root.
  destruct (Nat.eqb_spec (length ser) BYTES_PER_CHUNK) as [E | NE].
  - exists ser. split; [ reflexivity | exact E ].
  - destruct (Nat.ltb_spec (length ser) BYTES_PER_CHUNK) as [Hlt | Hge].
    + eexists. split; [ reflexivity | apply right_pad_length; lia ].
    + apply merkleize_no_limit. apply chunks_of_all_chunks.
Qed.

End EngineFacts.

(** ** Lazy padding against materialized padding *)

Section Padding.

Variable h : chunk -> chunk -> chunk.

Lemma hash_layer_zeros (level k : nat) :
  hash_layer h level (repeat (zero_hash h level) (2 * k))
  = repeat (zero_hash h (S level)) k.
Proof.
  induction k as [ | k IH]; [ reflexivity | ].
  replace (2 * S k)%nat with (S (S (2 * k))) by lia.
  cbn [repeat hash_layer]. rewrite IH. reflexivity.
Qed.

Lemma hash_layer_count (level : nat) (cs : list chunk) :
  (length cs <= 2 * length (hash_layer h level cs) <= length cs + 1)%nat.
Proof.
  induction cs as [ | x | x y l IH] using list_pair_ind;
    cbn [hash_layer length]; lia.
Qed.

(** A level of the padded sequence is the level of the populated chunks,
    padded with the zero hash of the next level. *)
Lemma hash_layer_padded (level : nat) (cs : list chunk) :
  forall m : nat,
    (length cs <= 2 * m)%nat ->
    hash_layer h level
               (cs ++ repeat (zero_hash h level) (2 * m - length cs))%list
    = (hash_layer h level cs
       ++ repeat (zero_hash h (S level))
                 (m - length (hash_layer h level cs)))%list.
Proof.
  induction cs as [ | x | x y l IH] using list_pair_ind; intros m Hm.
  - cbn [length app hash_layer]. rewrite !Nat.sub_0_r.
    apply hash_layer_zeros.
  - cbn [length] in Hm. destruct m as [ | m]; [ lia | ].
    replace (2 * S m - length [x])%nat with (S (2 * m)) by (cbn [length]; lia).
    cbn [repeat app hash_layer length]. rewrite hash_layer_zeros.
    replace (S m - 1)%nat with m by lia. reflexivity.
  - cbn [length] in Hm. destruct m as [ | m]; [ lia | ].
    replace (2 * S m - length (x :: y :: l))%nat with (2 * m - length l)%nat
      by (cbn [length]; lia).
    cbn [app hash_layer length]. rewrite IH by lia. reflexivity.
Qed.

(** The reduction of the padded sequence ends in exactly one chunk, the
    root that the lazy reduction reads off. *)
Lemma reduce_padded (depth : nat) :
  forall (level : nat) (cs : list chunk),
    (length cs <= 2 ^ depth)%nat ->
    reduce h depth level
           (cs ++ repeat (zero_hash h level) (2 ^ depth - length cs))%list
    = [match reduce h depth level cs with
       | root :: _ => root
       | [] => zero_hash h (level + depth)
       end].
Proof.
  induction depth as [ | d IH]; intros level cs Hlen.
  - cbn [Nat.pow] in Hlen. cbn [reduce Nat.pow].
    destruct cs as [ | x [ | y l]]; cbn [length] in Hlen; try lia.
    + rewrite Nat.add_0_r. reflexivity.
    + reflexivity.
  - cbn [reduce]. change (2 ^ S d)%nat with (2 * 2 ^ d)%nat in *.
    rewrite hash_layer_padded by exact Hlen.
    pose proof (hash_layer_count level cs) as Hc.
    rewrite IH by lia.
    replace (S level + d)%nat with (level + S d)%nat by lia. reflexivity.
Qed.

(** The root read off the lazily padded tree is the root of step 2 and
    step 3 of section 4.4 carried out to the letter. *)
Lemma merkle_root_materialized_eq (depth : nat) (cs : list chunk) :
  (length cs <= 2 ^ depth)%nat ->
  merkle_root h depth cs = merkle_root_materialized h depth cs.
Proof.
  intros Hlen. unfold merkle_root, merkle_root_materialized.
  cbn zeta. rewrite (reduce_padded depth 0 cs Hlen). reflexivity.
Qed.

Lemma within_pow2_of_limit (n : nat) (lim : Z) :
  Z.of_nat n <= lim -> (n <= 2 ^ ceil_log2 lim)%nat.
Proof.
  intros Hn.
  assert (H : lim <= 2 ^ Z.of_nat (ceil_log2 lim))
    by (apply ceil_log2_least; lia).
  apply Nat2Z.inj_le. rewrite Nat2Z.inj_pow.
  change (Z.of_nat 2) with 2. lia.
Qed.

(** Whenever [merkleize] returns, it returns the root of the materialized
    tree of the depth of step 1. *)
Lemma merkleize_materialized (cs : list chunk) (limit : option Z)
      (root : chunk) :
  merkleize h cs limit = Ok root ->
  root = merkle_root_materialized
           h (ceil_log2 (match limit with
                         | Some lim => lim
                         | None => Z.of_nat (length cs)
                         end)) cs.
Proof.
  unfold merkleize. destruct limit as [lim | ].
  - destruct (Z.ltb_spec lim (Z.of_nat (length cs))) as [ | Hle];
      [ discriminate | ].
    intros [= <-]. apply merkle_root_materialized_eq.
    now apply within_pow2_of_limit.
  - destruct (Z.eqb_spec (Z.of_nat (length cs)) 0) as [E | NE];
      intros [= <-].
    + destruct cs; [ reflexivity | discriminate E ].
    + apply merkle_root_materialized_eq. apply within_pow2_of_limit. lia.
Qed.

End Padding.

(** ** hash_tree_root, one kind of value at a time *)

Section HashTreeRootFacts.

Variable h : chunk -> chunk -> chunk.

Lemma hash_tree_root_container (name : string)
      (schema : list (string * SSZType)) (vals : list (string * SSZValue)) :
  hash_tree_root h (VContainer name schema vals)
  = (roots <- map_result (hash_tree_root h) (map snd vals) ;;
     merkleize h roots None).
Proof.
  cbn [hash_tree_root]. f_equal.
  induction vals as [ | [f x] t IH]; [ reflexivity | ].
  cbn [map snd map_result]. rewrite IH. reflexivity.
Qed.

Lemma hash_tree_root_list (name : string) (elem : SSZType) (limit : Z)
      (data : list SSZValue) :
  hash_tree_root h (VList name elem limit data)
  = (chunks <- (if is_basic elem
                then sers <- map_result serialize_basic data ;;
                     Ok (pack (concat sers))
                else map_result (hash_tree_root h) data) ;;
     merkleize_with_length_mixin
       h chunks (list_chunk_limit elem limit) (Z.of_nat (length data))).
Proof.
  cbn [hash_tree_root]. f_equal. destruct (is_basic elem); [ reflexivity | ].
  induction data as [ | x t IH]; [ reflexivity | ].
  cbn [map_result]. rewrite IH. reflexivity.
Qed.

(** The digest of a container depends on the field values alone: neither
    the class name nor the schema stored with the instance enters it. *)
Lemma hash_tree_root_ignores_class (name name' : string)
      (schema schema' : list (string * SSZType))
      (vals : list (string * SSZValue)) :
  hash_tree_root h (VContainer name schema vals)
  = hash_tree_root h (VContainer name' schema' vals).
Proof. reflexivity. Qed.

Lemma validated_container (name : string)
      (schema : list (string * SSZType)) (vals : list (string * SSZValue)) :
  validated (VContainer name schema vals) = true ->
  Forall (fun fv => validated (snd fv) = true) vals.
Proof.
  cbn [validated]. revert schema.
  induction vals as [ | [f x] t IH]; intros [ | [f' ty] s] H;
    try discriminate H; constructor.
  - apply andb_prop in H. destruct H as [H _].
    apply andb_prop in H. destruct H as [_ H]. exact H.
  - apply andb_prop in H. destruct H as [_ H]. exact (IH s H).
Qed.

Lemma validated_list (name : string) (elem : SSZType) (limit : Z)
      (data : list SSZValue) :
  validated (VList name elem limit data) = true ->
  Z.of_nat (length data) <= limit /\ Z.of_nat (length data) < 2 ^ 64
  /\ Forall (fun x => type_of x = elem /\ validated x = true) data.
Proof.
  cbn [validated]. intros H.
  apply andb_prop in H. destruct H as [H Hel].
  apply andb_prop in H. destruct H as [Hlim Hlen].
  apply Z.leb_le in Hlim. apply Z.ltb_lt in Hlen.
  split; [ exact Hlim | split; [ exact Hlen | ] ].
  clear Hlim Hlen. induction data as [ | x t IH]; constructor.
  - apply andb_prop in Hel. destruct Hel as [Hel _].
    apply andb_prop in Hel. destruct Hel as [Hty Hv].
    split; [ now apply type_eqb_eq | exact Hv ].
  - apply andb_prop in Hel. destruct Hel as [_ Hel]. exact (IH Hel).
Qed.

Lemma map_result_total {A : Type} (f : A -> Result chunk) (l : list A) :
  Forall (fun a => exists d, f a = Ok d /\ length d = BYTES_PER_CHUNK) l ->
  exists roots, map_result f l = Ok roots /\ all_chunks roots
                /\ length roots = length l.
Proof.
  induction 1 as [ | a t [d [Hd Hlen]] _ [roots [Hr [Hall Hn]]]].
  - exists []. repeat split. constructor.
  - exists (d :: roots). cbn [map_result]. rewrite Hd, Hr.
    repeat split; [ now constructor | simpl; now rewrite Hn ].
Qed.

(** The serialization of a validated list of integers: every element has
    the byte width of the element type. *)
Lemma serialize_basic_list (w : UintWidth) (data : list SSZValue) :
  Forall (fun x => type_of x = TUint w /\ validated x = true) data ->
  exists sers, map_result serialize_basic data = Ok sers
               /\ length (concat sers)
                  = (length data * Z.to_nat (bit_width w / 8))%nat.
Proof.
  induction 1 as [ | x t [Hty Hv] _ [sers [Hs Hlen]]].
  - exists []. split; reflexivity.
  - destruct x as [w' n | | | | ]; try discriminate Hty.
    injection Hty as ->. cbn [validated] in Hv.
    apply andb_prop in Hv. destruct Hv as [Hlo Hhi].
    apply Z.leb_le in Hlo. apply Z.ltb_lt in Hhi.
    exists (le_bytes (Z.to_nat (bit_width w / 8)) n :: sers).
    cbn [map_result serialize_basic].
    rewrite encode_in_range by (split; assumption). cbn [bind].
    rewrite Hs. cbn [bind]. split; [ reflexivity | ].
    cbn [concat length]. rewrite length_app, le_bytes_length, Hlen. lia.
Qed.

(** The packed chunks of a list of integers stay within the chunk limit. *)
Lemma packed_within_limit (w : UintWidth) (n : nat) (limit : Z) (b : bytes) :
  length b = (n * Z.to_nat (bit_width w / 8))%nat ->
  Z.of_nat n <= limit ->
  Z.of_nat (length (pack b)) <= list_chunk_limit (TUint w) limit.
Proof.
  intros Hb Hn. unfold pack.
  pose proof (chunks_of_count (length b) b) as Hc.
  unfold BYTES_PER_CHUNK in Hc. rewrite Hb in Hc at 2. clear Hb.
  remember (length (chunks_of (length b) b)) as c eqn:Ec. clear Ec.
  unfold list_chunk_limit, ceil_div.
  apply Z.div_le_lower_bound; [ apply (elements_per_chunk_pos (TUint w)) | ].
  set (s := Z.to_nat (bit_width w / 8)) in Hc.
  set (e := elements_per_chunk (TUint w)).
  destruct w; vm_compute in s; vm_compute in e; subst s e; lia.
Qed.

Lemma packed_bits_within_limit (bits : list bool) (limit : Z) :
  Z.of_nat (length bits) <= limit ->
  Z.of_nat (length (pack_bits bits)) <= bitlist_chunk_limit limit.
Proof.
  intros Hn. unfold pack_bits, pack.
  pose proof (bits_to_bytes_count (length bits) bits) as Hb.
  pose proof (chunks_of_count (length (bits_to_bytes (length bits) bits))
                              (bits_to_bytes (length bits) bits)) as Hc.
  unfold BYTES_PER_CHUNK in Hc.
  unfold bitlist_chunk_limit, ceil_div.
  apply Z.div_le_lower_bound; lia.
Qed.

Lemma list_chunk_limit_composite (elem : SSZType) (limit : Z) :
  is_basic elem = false -> list_chunk_limit elem limit = limit.
Proof.
  intros H. destruct elem; try discriminate H;
    unfold list_chunk_limit, ceil_div; cbn [elements_per_chunk];
    rewrite Z.div_1_r; lia.
Qed.

Hypothesis hash_length : forall a b, length (h a b) = BYTES_PER_CHUNK.

(** [hash_tree_root] is total over validated instances, and its digest has
    32 bytes. *)
Lemma hash_tree_root_total (v : SSZValue) :
  validated v = true ->
  exists d, hash_tree_root h v = Ok d /\ length d = BYTES_PER_CHUNK.
Proof.
  induction v as [w n | n data | name schema vals IH
                  | name elem limit data IH | name limit bits]
    using SSZValue_nested_ind; intros Hv.
  - cbn [validated] in Hv. apply andb_prop in Hv. destruct Hv as [Hlo Hhi].
    apply Z.leb_le in Hlo. apply Z.ltb_lt in Hhi.
    cbn [hash_tree_root]. rewrite encode_in_range by (split; assumption).
    cbn [bind]. apply primitive_root_total, hash_length.
  - cbn [validated] in Hv. cbn [hash_tree_root]. unfold encode_fixed_bytes.
    rewrite Hv. cbn [bind]. apply primitive_root_total, hash_length.
  - rewrite hash_tree_root_container.
    apply validated_container in Hv.
    destruct (map_result_total (hash_tree_root h) (map snd vals))
      as [roots [Hr [Hall _]]].
    { apply Forall_map. rewrite Forall_forall in *. intros fv Hin.
      apply IH; [ exact Hin | apply Hv; exact Hin ]. }
    rewrite Hr. cbn [bind]. apply merkleize_no_limit; assumption.
  - rewrite hash_tree_root_list.
    apply validated_list in Hv. destruct Hv as [Hlim [Hlen Hel]].
    destruct (is_basic elem) eqn:Hbasic.
    + destruct elem as [w | | | | ]; try discriminate Hbasic.
      destruct (serialize_basic_list w data Hel) as [sers [Hs Hcount]].
      rewrite Hs. cbn [bind]. apply mixin_within_limit.
      * exact hash_length.
      * apply chunks_of_all_chunks.
      * now apply (packed_within_limit w (length data)).
      * lia.
    + destruct (map_result_total (hash_tree_root h) data)
        as [roots [Hr [Hall Hn]]].
      { rewrite Forall_forall in *. intros x Hin.
        apply IH; [ exact Hin | apply Hel; exact Hin ]. }
      rewrite Hr. cbn [bind]. apply mixin_within_limit.
      * exact hash_length.
      * exact Hall.
      * rewrite list_chunk_limit_composite by exact Hbasic. lia.
      * lia.
  - cbn [validated] in Hv. apply andb_prop in Hv. destruct Hv as [Hlim Hlen].
    apply Z.leb_le in Hlim. apply Z.ltb_lt in Hlen.
    cbn [hash_tree_root]. apply mixin_within_limit.
    + exact hash_length.
    + apply chunks_of_all_chunks.
    + now apply packed_bits_within_limit.
    + lia.
Qed.

End HashTreeRootFacts.

(** ** Construction yields validated instances *)

Lemma map_result_Forall2 {A B : Type} (f : A -> Result B) (l : list A) :
  forall l', map_result f l = Ok l' -> Forall2 (fun a b => f a = Ok b) l l'.
Proof.
  induction l as [ | a t IH]; intros l' H; cbn [map_result] in H.
  - injection H as <-. constructor.
  - destruct (f a) as [b | e] eqn:Ea; [ | discriminate H ].
    cbn [bind] in H.
    destruct (map_result f t) as [bs | e] eqn:Et; [ | discriminate H ].
    injection H as <-. constructor; [ exact Ea | now apply IH ].
Qed.

Lemma lookup_In (k : string) (kwargs : list (string * SSZValue))
      (v : SSZValue) :
  lookup k kwargs = Some v -> exists k', In (k', v) kwargs.
Proof.
  induction kwargs as [ | [k' x] t IH]; cbn [lookup]; [ discriminate | ].
  destruct (String.eqb k k').
  - intros [= <-]. exists k'. now left.
  - intros H. destruct (IH H) as [k'' Hin]. exists k''. now right.
Qed.

Lemma bind_fields_validated (name : string)
      (kwargs : list (string * SSZValue)) :
  Forall (fun kv => validated (snd kv) = true) kwargs ->
  forall schema vals,
    bind_fields schema kwargs = Ok vals ->
    validated (VContainer name schema vals) = true.
Proof.
  intros Hkw schema.
  induction schema as [ | [f t] rest IH]; intros vals H;
    cbn [bind_fields] in H.
  - injection H as <-. reflexivity.
  - destruct (lookup f kwargs) as [v | ] eqn:El; [ | discriminate H ].
    destruct (type_eqb (type_of v) t) eqn:Et; [ | discriminate H ].
    destruct (bind_fields rest kwargs) as [vals' | e]; [ | discriminate H ].
    injection H as <-.
    specialize (IH vals' eq_refl). cbn [validated] in IH |- *.
    rewrite String.eqb_refl, Et, IH.
    destruct (lookup_In f kwargs v El) as [k' Hin].
    rewrite Forall_forall in Hkw. specialize (Hkw (k', v) Hin).
    cbn [snd] in Hkw. rewrite Hkw. reflexivity.
Qed.

Lemma elements_validated (elem : SSZType) (items : list Item) :
  Forall (fun i => match i with
                   | IValue v => validated v = true
                   | _ => True
                   end) items ->
  forall data,
    map_result (item_value elem) items = Ok data ->
    Forall (fun x => type_eqb (type_of x) elem = true /\ validated x = true)
           data.
Proof.
  intros Hitems data H. apply map_result_Forall2 in H.
  induction H as [ | i x items data Hi _ IH]; [ constructor | ].
  inversion Hitems as [ | ? ? Hv Hrest]; subst.
  constructor; [ | exact (IH Hrest) ].
  destruct i as [ | | v]; try discriminate Hi. cbn [item_value] in Hi.
  destruct (type_eqb (type_of v) elem) eqn:Et; [ | discriminate Hi ].
  injection Hi as <-. split; [ exact Et | exact Hv ].
Qed.

(** A call of a class that returns an instance returns a validated instance
    of that class. *)
Lemma new_validated (cls : SSZType) (args : Args) (v : SSZValue) :
  args_validated args -> capacity_fits cls ->
  new cls args = Ok v -> validated v = true /\ type_of v = cls.
Proof.
  intros Hargs Hcap H.
  destruct cls as [w | n | name schema | name elem limit | name limit];
    destruct args as [value | items | kwargs]; try discriminate H;
    cbn [new] in H.
  - destruct ((0 <=? value) && (value <? 2 ^ bit_width w)) eqn:E;
      [ | discriminate H ].
    injection H as <-. split; [ exact E | reflexivity ].
  - destruct (map_result item_byte items) as [data | e]; [ | discriminate H ].
    cbn [bind] in H.
    destruct (Nat.eqb (length data) n) eqn:E; [ | discriminate H ].
    injection H as <-. split; [ exact E | reflexivity ].
  - destruct (forallb (fun kv => declared schema (fst kv)) kwargs);
      [ | discriminate H ].
    destruct (bind_fields schema kwargs) as [vals | e] eqn:Eb;
      [ | discriminate H ].
    injection H as <-.
    split; [ exact (bind_fields_validated name kwargs Hargs _ _ Eb)
           | reflexivity ].
  - destruct (map_result (item_value elem) items) as [data | e] eqn:Em;
      [ | discriminate H ].
    cbn [bind] in H.
    destruct (Z.ltb_spec limit (Z.of_nat (length data))) as [ | Hle];
      [ discriminate H | ].
    injection H as <-. split; [ | reflexivity ].
    pose proof (elements_validated elem items Hargs data Em) as Hel.
    cbn [capacity_fits] in Hcap. cbn [validated].
    apply andb_true_intro. split.
    + apply andb_true_intro. split; [ apply Z.leb_le | apply Z.ltb_lt ]; lia.
    + clear Em Hle. induction Hel as [ | x t [Ht Hx] _ IH]; [ reflexivity | ].
      rewrite Ht, Hx, IH. reflexivity.
  - destruct (map_result item_bool items) as [bits | e]; [ | discriminate H ].
    cbn [bind] in H.
    destruct (Z.ltb_spec limit (Z.of_nat (length bits))) as [ | Hle];
      [ discriminate H | ].
    injection H as <-. split; [ | reflexivity ].
    cbn [capacity_fits] in Hcap. cbn [validated].
    apply andb_true_intro.
    split; [ apply Z.leb_le | apply Z.ltb_lt ]; lia.
Qed.

(** ** The SHA-256 node hash *)

(** The test vectors of FIPS 180-4 (one block, two blocks after padding),
    the first zero hash above the leaves, and the ends of the two constant
    tables. *)
Example sha256_abc :
  hex (Sha256.sha256 (bytes_of_string "abc"))
  = "ba7816bf8f01cfea414140de5dae2223b00361a396177a9cb410ff61f20015ad"%string.
Proof. vm_compute. reflexivity. Qed.

Example sha256_zero_pair :
  hex (Sha256.hash_nodes (zero_bytes 32) (zero_bytes 32))
  = "f5a5fd42d16a20302798ef6ed309979b43003d2320d9f0e8ea9831a92759fb4b"%string.
Proof. vm_compute. reflexivity. Qed.

Example sha256_constants :
  nth 0 Sha256.K 0 = 0x428a2f98 /\ nth 63 Sha256.K 0 = 0xc67178f2
  /\ nth 0 Sha256.H0 0 = 0x6a09e667 /\ nth 7 Sha256.H0 0 = 0x5be0cd19.
Proof. vm_compute. repeat split. Qed.

Example sha256_two_blocks :
  hex (Sha256.sha256
         (bytes_of_string
            "abcdbcdecdefdefgefghfghighijhijkijkljklmklmnlmnomnopnopq"))
  = "248d6a61d20638b8e5c026930c3e6039a33ce45964ff2167f6ecedd419db06c1"%string.
Proof. vm_compute. reflexivity. Qed.


Lemma sha256_length (msg : bytes) : length (Sha256.sha256 msg) = 32%nat.
Proof.
  unfold Sha256.sha256.
  generalize (Sha256.blocks
                (length (Sha256.pad (map byte_to_Z msg)) / 64) Sha256.init
                (Sha256.pad (map byte_to_Z msg))).
  intros s. reflexivity.
Qed.

Lemma sha256_hash_nodes_length (a b : chunk) :
  length (Sha256.hash_nodes a b) = BYTES_PER_CHUNK.
Proof. apply sha256_length. Qed.

(** ** What the scripts build *)

Lemma create_beam_state_value :
  validate_beam_state_hash.create_beam_state = Ok beam_state_instance.
Proof. vm_compute. reflexivity. Qed.

Lemma beam_state_validated : validated beam_state_instance = true.
Proof. vm_compute. reflexivity. Qed.

Lemma beam_state_sha256_digest :
  lean_spec_hash_tree_root beam_state_instance = Ok beam_state_digest.
Proof. vm_compute. reflexivity. Qed.

Lemma hex_zig_digest : hex zig_digest = validate_beam_state_hash.zig_hash.
Proof. vm_compute. reflexivity. Qed.

(** * Specified properties *)

Import validate_beam_state_hash.

(** ** The comparison in [main] *)

(** C1.  [main()] of the validation script returns [True] exactly when the
    lowercase hex rendering of [hash_tree_root] applied to the BeamState
    that [create_beam_state()] builds equals the literal comparison string,
    and returns [False] exactly when the two differ. *)
Theorem main_true_iff_digest_matches
        (hash_tree_root : SSZValue -> Result bytes)
        (beam_state : SSZValue) (hash_result : bytes) :
  create_beam_state = Ok beam_state ->
  hash_tree_root beam_state = Ok hash_result ->
  (main hash_tree_root = Ok true
   <-> hex hash_result
       = "933fc69092f542e467681ac6cf9dae4a616ba5ea9c3c61f93cbcaf0be3548e01")
  /\
  (main hash_tree_root = Ok false
   <-> hex hash_result
       <> "933fc69092f542e467681ac6cf9dae4a616ba5ea9c3c61f93cbcaf0be3548e01").
Proof.
  intros Hstate Hroot. unfold main. rewrite Hstate. cbn [bind].
  rewrite Hroot. cbn [bind]. fold zig_hash.
  destruct (String.eqb_spec (hex hash_result) zig_hash) as [E | NE].
  - split; split; intros H; try reflexivity; try exact E;
      [ discriminate H | contradiction ].
  - split; split; intros H; try reflexivity; try exact NE;
      [ discriminate H | contradiction ].
Qed.

Lemma main_true_iff_digest_matches_witness :
  create_beam_state = Ok beam_state_instance
  /\ lean_spec_hash_tree_root beam_state_instance = Ok beam_state_digest
  /\ (main lean_spec_hash_tree_root = Ok true
      <-> hex beam_state_digest
          = "933fc69092f542e467681ac6cf9dae4a616ba5ea9c3c61f93cbcaf0be3548e01")
  /\ (main lean_spec_hash_tree_root = Ok false
      <-> hex beam_state_digest
          <> "933fc69092f542e467681ac6cf9dae4a616ba5ea9c3c61f93cbcaf0be3548e01").
Proof.
  split; [ exact create_beam_state_value | ].
  split; [ exact beam_state_sha256_digest | ].
  exact (main_true_iff_digest_matches
           lean_spec_hash_tree_root beam_state_instance beam_state_digest
           create_beam_state_value beam_state_sha256_digest).
Defined.

(** ** The literal *)

(** C2, as stated: the literal would have 66 hexadecimal characters and
    begin with "01".  It has neither property. *)
Lemma zig_hash_is_not_66_chars :
  ~ (String.length zig_hash = 66%nat /\ String.prefix "01" zig_hash = true).
Proof. intros [Hlen _]. vm_compute in Hlen. discriminate Hlen. Qed.

(** C2, amended.  The literal comparison digest of
    validate_beam_state_hash.py is 64 lowercase hexadecimal characters, the
    rendering of exactly 32 bytes; "01" is its last byte and "93" its
    first. *)
Theorem zig_hash_is_32_bytes :
  String.length zig_hash = 64%nat
  /\ length (fromhex zig_hash) = 32%nat
  /\ hex (fromhex zig_hash) = zig_hash
  /\ String.substring 62 2 zig_hash = "01"
  /\ String.prefix "93" zig_hash = true
  /\ String.prefix "01" zig_hash = false.
Proof. vm_compute. repeat split. Qed.

(** ** The capacity constants *)

(** C5.  [VALIDATOR_REGISTRY_LIMIT] is [1 << 12 = 4096] and is the LIMIT of
    [JustificationsValidatorsBitlist]; [HISTORICAL_ROOTS_LIMIT] is
    [1 << 18 = 262144] and is the LIMIT of [JustifiedSlotsBitlist],
    [HistoricalBlockHashesList] and [JustificationsRootsList].  The
    collections of the state that [create_beam_state] returns are instances
    of exactly these classes, so the constants reach them unchanged. *)
Theorem capacity_constants_threaded :
  VALIDATOR_REGISTRY_LIMIT = Z.shiftl 1 12
  /\ VALIDATOR_REGISTRY_LIMIT = 4096
  /\ LIMIT JustificationsValidatorsBitlist = Some VALIDATOR_REGISTRY_LIMIT
  /\ HISTORICAL_ROOTS_LIMIT = Z.shiftl 1 18
  /\ HISTORICAL_ROOTS_LIMIT = 262144
  /\ LIMIT JustifiedSlotsBitlist = Some HISTORICAL_ROOTS_LIMIT
  /\ LIMIT HistoricalBlockHashesList = Some HISTORICAL_ROOTS_LIMIT
  /\ LIMIT JustificationsRootsList = Some HISTORICAL_ROOTS_LIMIT
  /\ exists beam_state,
      create_beam_state = Ok beam_state
      /\ option_map type_of (field beam_state "justifications_validators")
         = Some JustificationsValidatorsBitlist
      /\ option_map type_of (field beam_state "justified_slots")
         = Some JustifiedSlotsBitlist
      /\ option_map type_of (field beam_state "historical_block_hashes")
         = Some HistoricalBlockHashesList
      /\ option_map type_of (field beam_state "justifications_roots")
         = Some JustificationsRootsList.
Proof.
  repeat (split; [ reflexivity | ]).
  exists beam_state_instance.
  split; [ exact create_beam_state_value | ].
  repeat split.
Qed.

(** ** The shared checkpoint *)

(** C9.  [create_beam_state] assigns the one zero-valued [Mini3SFCheckpoint]
    (root of 32 zero bytes, slot 0) to [latest_justified] and to
    [latest_finalized]: the two fields of the returned state hold the same
    value, so whatever [hash_tree_root] computes, it computes the same for
    both subtrees. *)
Theorem checkpoints_coincide :
  exists beam_state checkpoint,
    create_beam_state = Ok beam_state
    /\ field beam_state "latest_justified" = Some checkpoint
    /\ field beam_state "latest_finalized" = Some checkpoint
    /\ type_of checkpoint = Mini3SFCheckpoint
    /\ field checkpoint "root" = Some (VBytes 32 (zero_bytes 32))
    /\ field checkpoint "slot" = Some (VUint W64 0)
    /\ (forall hash_tree_root : SSZValue -> Result bytes,
          option_map hash_tree_root (field beam_state "latest_justified")
          = option_map hash_tree_root (field beam_state "latest_finalized"))
    /\ (forall h : chunk -> chunk -> chunk,
          SSZ.hash_tree_root h checkpoint
          = Ok (h (zero_bytes 32) (right_pad (le_bytes 8 0)))).
Proof.
  exists beam_state_instance, zero_checkpoint.
  split; [ exact create_beam_state_value | ].
  do 5 (split; [ reflexivity | ]).
  split; [ intros htr; reflexivity | intros h; reflexivity ].
Qed.

(** ** The entry point *)

(** C10.  The module-level entry point drops the value of [main()]: a run
    whose digest matches the literal ([main] returns [True]) and a run whose
    digest differs ([main] returns [False]) both end normally, with the same
    exit status 0. *)
Theorem run_outcome_ignores_main_result
        (matching differing : SSZValue -> Result bytes)
        (beam_state : SSZValue) (d_match d_differ : bytes) :
  create_beam_state = Ok beam_state ->
  matching beam_state = Ok d_match -> hex d_match = zig_hash ->
  differing beam_state = Ok d_differ -> hex d_differ <> zig_hash ->
  main matching = Ok true /\ main differing = Ok false
  /\ run matching = Exit0 /\ run differing = Exit0.
Proof.
  intros Hstate Hm Em Hd Ed.
  assert (M : main matching = Ok true).
  { unfold main. rewrite Hstate. cbn [bind]. rewrite Hm. cbn [bind].
    apply String.eqb_eq in Em. rewrite Em. reflexivity. }
  assert (D : main differing = Ok false).
  { unfold main. rewrite Hstate. cbn [bind]. rewrite Hd. cbn [bind].
    apply String.eqb_neq in Ed. rewrite Ed. reflexivity. }
  unfold run. rewrite M, D. repeat split.
Qed.

Lemma beam_state_digest_differs : hex beam_state_digest <> zig_hash.
Proof. vm_compute. discriminate. Qed.

Lemma run_outcome_ignores_main_result_witness :
  main (fun _ => Ok zig_digest) = Ok true
  /\ main lean_spec_hash_tree_root = Ok false
  /\ run (fun _ => Ok zig_digest) = Exit0
  /\ run lean_spec_hash_tree_root = Exit0.
Proof.
  exact (run_outcome_ignores_main_result
           (fun _ => Ok zig_digest) lean_spec_hash_tree_root
           beam_state_instance zig_digest beam_state_digest
           create_beam_state_value eq_refl hex_zig_digest
           beam_state_sha256_digest beam_state_digest_differs).
Defined.

(** ** Empty collections *)

Lemma ceil_div_nonneg (a b : Z) : 0 <= a -> 0 < b -> 0 <= ceil_div a b.
Proof. intros Ha Hb. unfold ceil_div. apply Z.div_pos; lia. Qed.

Lemma empty_bitlist_root (h : chunk -> chunk -> chunk) (name : string)
      (limit : Z) :
  0 <= limit ->
  SSZ.hash_tree_root h (VBitlist name limit [])
  = Ok (h (zero_hash h (ceil_log2 (bitlist_chunk_limit limit)))
          (right_pad (le_bytes 8 0))).
Proof.
  intros Hlim. cbn [SSZ.hash_tree_root]. unfold merkleize_with_length_mixin.
  change (pack_bits []) with (@nil chunk).
  rewrite merkleize_empty by (apply ceil_div_nonneg; lia).
  reflexivity.
Qed.

(** C3.  For every element type [T] and capacity [LIMIT], the root of the
    empty [List<T, LIMIT>] is [hash(Z[depth], len)], where [depth] is
    [ceil(log2(LIMIT / elements_per_chunk))] and [len] is the 8-byte
    little-endian encoding of the length 0, zero-padded to a full 32-byte
    chunk and mixed in as the right sibling of the content root. *)
Theorem empty_list_root (h : chunk -> chunk -> chunk) (name : string)
        (T : SSZType) (LIMIT : Z) :
  0 <= LIMIT ->
  exists (depth : nat) (len : bytes),
    ceil_log2_ratio LIMIT (elements_per_chunk T) depth
    /\ serialize_uint64_le 0 = Ok len
    /\ length len = 8%nat
    /\ length (right_pad len) = 32%nat
    /\ SSZ.hash_tree_root h (VList name T LIMIT [])
       = Ok (h (zero_hash h depth) (right_pad len)).
Proof.
  intros Hlim.
  exists (ceil_log2 (list_chunk_limit T LIMIT)), (le_bytes 8 0).
  split; [ apply list_depth_is_ceil_log2_ratio | ].
  repeat (split; [ reflexivity | ]).
  rewrite hash_tree_root_list.
  assert (E : (if is_basic T
               then sers <- map_result serialize_basic [] ;;
                    Ok (pack (concat sers))
               else map_result (SSZ.hash_tree_root h) []) = Ok [])
    by (destruct (is_basic T); reflexivity).
  rewrite E. cbn [bind]. unfold merkleize_with_length_mixin.
  rewrite merkleize_empty
    by (apply ceil_div_nonneg; [ exact Hlim | apply elements_per_chunk_pos ]).
  reflexivity.
Qed.

Lemma empty_list_root_witness :
  0 <= HISTORICAL_ROOTS_LIMIT
  /\ exists (depth : nat) (len : bytes),
      ceil_log2_ratio HISTORICAL_ROOTS_LIMIT (elements_per_chunk Bytes32) depth
      /\ serialize_uint64_le 0 = Ok len
      /\ length len = 8%nat
      /\ length (right_pad len) = 32%nat
      /\ SSZ.hash_tree_root Sha256.hash_nodes
           (VList "HistoricalBlockHashesList" Bytes32 HISTORICAL_ROOTS_LIMIT [])
         = Ok (Sha256.hash_nodes (zero_hash Sha256.hash_nodes depth)
                                 (right_pad len)).
Proof.
  split; [ vm_compute; discriminate | ].
  apply (empty_list_root Sha256.hash_nodes "HistoricalBlockHashesList"
                         Bytes32 HISTORICAL_ROOTS_LIMIT).
  vm_compute. discriminate.
Defined.

(** The two lists of the beam state sit on trees of depth 18, its bitlists
    on trees of depth 10 and 4. *)
Example beam_state_depths :
  ceil_log2 (list_chunk_limit Bytes32 HISTORICAL_ROOTS_LIMIT) = 18%nat
  /\ ceil_log2 (bitlist_chunk_limit HISTORICAL_ROOTS_LIMIT) = 10%nat
  /\ ceil_log2 (bitlist_chunk_limit VALIDATOR_REGISTRY_LIMIT) = 4%nat.
Proof. vm_compute. repeat split. Qed.

(** The two bitlists of the beam state, built and hashed over SHA-256
    nodes. *)
Example empty_bitlists_of_different_limits_differ :
  exists small large d_small d_large,
    new JustificationsValidatorsBitlist (AList []) = Ok small
    /\ new JustifiedSlotsBitlist (AList []) = Ok large
    /\ small = VBitlist "JustificationsValidatorsBitlist" 4096 []
    /\ large = VBitlist "JustifiedSlotsBitlist" 262144 []
    /\ lean_spec_hash_tree_root small = Ok d_small
    /\ lean_spec_hash_tree_root large = Ok d_large
    /\ d_small <> d_large.
Proof.
  exists (VBitlist "JustificationsValidatorsBitlist" 4096 []),
         (VBitlist "JustifiedSlotsBitlist" 262144 []),
         (fromhex
            "792930bbd5baac43bcc798ee49aa8185ef76bb3b44ba62b91d86ae569e4bb535"),
         (fromhex
            "ceb3266bf0938bc72f8256356ddc13bccc20dd767f25448b2658135780b7da51").
  repeat (split; [ vm_compute; reflexivity | ]).
  vm_compute. discriminate.
Qed.

(** It is the depth of the tree that separates the two: limits that round to
    the same number of levels give the same digest. *)
Remark empty_bitlists_of_equal_depth_agree (h : chunk -> chunk -> chunk)
       (name name' : string) :
  SSZ.hash_tree_root h (VBitlist name 4096 [])
  = SSZ.hash_tree_root h (VBitlist name' 4000 []).
Proof. rewrite !empty_bitlist_root by lia. reflexivity. Qed.

(** ** Which empty collections have different digests *)

Lemma Ok_injective {A : Type} (a b : A) : Ok a = Ok b -> a = b.
Proof. intros H. injection H as H. exact H. Qed.

Lemma bytes_eqb_refl (a : bytes) : bytes_eqb a a = true.
Proof.
  induction a as [ | x t IH]; [ reflexivity | ].
  cbn [bytes_eqb]. rewrite IH, andb_true_r.
  destruct x; reflexivity.
Qed.

Lemma distinctb_NoDup (l : list bytes) : distinctb l = true -> NoDup l.
Proof.
  induction l as [ | x t IH]; intros H; [ constructor | ].
  cbn [distinctb] in H. apply andb_prop in H. destruct H as [Hx Ht].
  constructor; [ | exact (IH Ht) ].
  intros Hin. apply negb_true_iff in Hx.
  assert (E : existsb (bytes_eqb x) t = true)
    by (apply existsb_exists; exists x; split;
        [ exact Hin | apply bytes_eqb_refl ]).
  rewrite E in Hx. discriminate Hx.
Qed.

Lemma zero_table_nth (h : chunk -> chunk -> chunk) (n : nat) :
  forall i j : nat,
    (j <= n)%nat ->
    nth_error (zero_table h (zero_hash h i) n) j = Some (zero_hash h (i + j)).
Proof.
  induction n as [ | n IH]; intros i j Hj.
  - assert (j = 0%nat) by lia. subst j. rewrite Nat.add_0_r. reflexivity.
  - destruct j as [ | j].
    + rewrite Nat.add_0_r. reflexivity.
    + cbn [zero_table nth_error].
      change (h (zero_hash h i) (zero_hash h i)) with (zero_hash h (S i)).
      rewrite IH by lia. f_equal. f_equal. lia.
Qed.

Lemma empty_roots_nth (d : nat) :
  (d <= 64)%nat ->
  nth_error empty_roots d
  = Some (Sha256.hash_nodes (zero_hash Sha256.hash_nodes d)
                            (right_pad (le_bytes 8 0))).
Proof.
  intros Hd. unfold empty_roots. rewrite nth_error_map.
  change (zero_bytes BYTES_PER_CHUNK) with (zero_hash Sha256.hash_nodes 0).
  rewrite zero_table_nth by exact Hd. reflexivity.
Qed.

Lemma empty_roots_distinct : NoDup empty_roots.
Proof. apply distinctb_NoDup. vm_compute. reflexivity. Qed.

(** Over SHA-256 nodes the roots of the empty collections of depth at most
    64 are pairwise different. *)
Lemma empty_root_injective (d1 d2 : nat) :
  (d1 <= 64)%nat -> (d2 <= 64)%nat ->
  Sha256.hash_nodes (zero_hash Sha256.hash_nodes d1) (right_pad (le_bytes 8 0))
  = Sha256.hash_nodes (zero_hash Sha256.hash_nodes d2)
                      (right_pad (le_bytes 8 0)) ->
  d1 = d2.
Proof.
  intros H1 H2 E.
  pose proof empty_roots_distinct as Hnd.
  rewrite NoDup_nth_error in Hnd. apply Hnd.
  - apply nth_error_Some. rewrite empty_roots_nth by exact H1. discriminate.
  - rewrite !empty_roots_nth by assumption. f_equal. exact E.
Qed.

Lemma empty_list_digest (h : chunk -> chunk -> chunk) (name : string)
      (T : SSZType) (limit : Z) :
  0 <= limit ->
  SSZ.hash_tree_root h (VList name T limit [])
  = Ok (h (zero_hash h (ceil_log2 (list_chunk_limit T limit)))
          (right_pad (le_bytes 8 0))).
Proof.
  intros Hlim. rewrite hash_tree_root_list.
  assert (E : (if is_basic T
               then sers <- map_result serialize_basic [] ;;
                    Ok (pack (concat sers))
               else map_result (SSZ.hash_tree_root h) []) = Ok [])
    by (destruct (is_basic T); reflexivity).
  rewrite E. cbn [bind]. unfold merkleize_with_length_mixin.
  rewrite merkleize_empty
    by (apply ceil_div_nonneg; [ exact Hlim | apply elements_per_chunk_pos ]).
  reflexivity.
Qed.

Lemma ceil_log2_bound (n : Z) : n <= 2 ^ 64 -> (ceil_log2 n <= 64)%nat.
Proof. intros H. apply ceil_log2_least. exact H. Qed.

Lemma ceil_div_below (a b : Z) : 0 <= a -> 0 < b -> ceil_div a b <= a.
Proof. intros Ha Hb. apply ceil_div_le_iff; [ exact Hb | nia ]. Qed.

(** The digest of an empty collection is fixed by the depth of its tree, and
    that depth is at most 64. *)
Lemma empty_instance_digest (h : chunk -> chunk -> chunk) (cls : SSZType)
      (v : SSZValue) :
  capacity_in_range cls -> empty_instance cls = Some v ->
  exists d, collection_depth cls = Some d /\ (d <= 64)%nat
            /\ SSZ.hash_tree_root h v
               = Ok (h (zero_hash h d) (right_pad (le_bytes 8 0))).
Proof.
  intros Hcap Hv.
  destruct cls as [ | | | name elem limit | name limit];
    try discriminate Hv; cbn [capacity_in_range] in Hcap;
    injection Hv as <-; eexists; (split; [ reflexivity | ]); split.
  - apply ceil_log2_bound. unfold list_chunk_limit.
    pose proof (ceil_div_below limit (elements_per_chunk elem)
                  (proj1 Hcap) (elements_per_chunk_pos elem)).
    lia.
  - apply empty_list_digest. lia.
  - apply ceil_log2_bound. unfold bitlist_chunk_limit.
    pose proof (ceil_div_below limit 256 (proj1 Hcap) eq_refl). lia.
  - apply empty_bitlist_root. lia.
Qed.

(** C4, as stated: structurally distinct empty collections with different
    LIMITs would always have different digests.  The empty bitlists of LIMIT
    4096 and of LIMIT 4000 are distinct types, and their trees have the same
    depth and the same digest. *)
Lemma different_limits_same_digest :
  ~ (forall (name1 name2 : string) (limit1 limit2 : Z),
        0 <= limit1 -> 0 <= limit2 -> limit1 <> limit2 ->
        lean_spec_hash_tree_root (VBitlist name1 limit1 [])
        <> lean_spec_hash_tree_root (VBitlist name2 limit2 [])).
Proof.
  intros H.
  apply (H "JustificationsValidatorsBitlist" "Bitlist4000" 4096 4000);
    try lia.
  apply empty_bitlists_of_equal_depth_agree.
Qed.

(** C4, amended.  Two empty list or bitlist types, of any element type and
    with capacities below [2 ^ 64], have different digests exactly when
    their trees have different depths; a different LIMIT alone does not
    separate them.  The empty [JustificationsValidatorsBitlist] (LIMIT 4096,
    depth 4) and the empty [JustifiedSlotsBitlist] (LIMIT 262144, depth 10)
    have different digests. *)
Theorem empty_collections_differ_iff_depths_differ
        (cls1 cls2 : SSZType) (empty1 empty2 : SSZValue) :
  capacity_in_range cls1 -> capacity_in_range cls2 ->
  empty_instance cls1 = Some empty1 -> empty_instance cls2 = Some empty2 ->
  (lean_spec_hash_tree_root empty1 <> lean_spec_hash_tree_root empty2
   <-> collection_depth cls1 <> collection_depth cls2)
  /\ collection_depth JustificationsValidatorsBitlist = Some 4%nat
  /\ collection_depth JustifiedSlotsBitlist = Some 10%nat
  /\ lean_spec_hash_tree_root
       (VBitlist "JustificationsValidatorsBitlist" VALIDATOR_REGISTRY_LIMIT [])
     <> lean_spec_hash_tree_root
          (VBitlist "JustifiedSlotsBitlist" HISTORICAL_ROOTS_LIMIT []).
Proof.
  intros Hc1 Hc2 He1 He2.
  assert (G : forall c1 c2 e1 e2,
             capacity_in_range c1 -> capacity_in_range c2 ->
             empty_instance c1 = Some e1 -> empty_instance c2 = Some e2 ->
             (lean_spec_hash_tree_root e1 <> lean_spec_hash_tree_root e2
              <-> collection_depth c1 <> collection_depth c2)).
  { clear. intros c1 c2 e1 e2 Hc1 Hc2 He1 He2.
    destruct (empty_instance_digest Sha256.hash_nodes c1 e1 Hc1 He1)
      as [d1 [Hd1 [Hb1 Hr1]]].
    destruct (empty_instance_digest Sha256.hash_nodes c2 e2 Hc2 He2)
      as [d2 [Hd2 [Hb2 Hr2]]].
    unfold lean_spec_hash_tree_root. rewrite Hr1, Hr2, Hd1, Hd2.
    split.
    - intros Hne E. injection E as E. apply Hne. rewrite E. reflexivity.
    - intros Hne E. apply Ok_injective in E. apply Hne. f_equal.
      exact (empty_root_injective d1 d2 Hb1 Hb2 E). }
  split; [ exact (G cls1 cls2 empty1 empty2 Hc1 Hc2 He1 He2) | ].
  split; [ reflexivity | ]. split; [ reflexivity | ].
  apply (G JustificationsValidatorsBitlist JustifiedSlotsBitlist);
    try reflexivity; try (cbn; lia).
  cbv. discriminate.
Qed.

Lemma empty_collections_differ_iff_depths_differ_witness :
  (lean_spec_hash_tree_root
     (VList "HistoricalBlockHashesList" Bytes32 HISTORICAL_ROOTS_LIMIT [])
   <> lean_spec_hash_tree_root
        (VBitlist "JustifiedSlotsBitlist" HISTORICAL_ROOTS_LIMIT [])
   <-> collection_depth HistoricalBlockHashesList
       <> collection_depth JustifiedSlotsBitlist)
  /\ collection_depth JustificationsValidatorsBitlist = Some 4%nat
  /\ collection_depth JustifiedSlotsBitlist = Some 10%nat
  /\ lean_spec_hash_tree_root
       (VBitlist "JustificationsValidatorsBitlist" VALIDATOR_REGISTRY_LIMIT [])
     <> lean_spec_hash_tree_root
          (VBitlist "JustifiedSlotsBitlist" HISTORICAL_ROOTS_LIMIT []).
Proof.
  apply (empty_collections_differ_iff_depths_differ
           HistoricalBlockHashesList JustifiedSlotsBitlist).
  - vm_compute. split; [ discriminate | reflexivity ].
  - vm_compute. split; [ discriminate | reflexivity ].
  - reflexivity.
  - reflexivity.
Defined.


(** ** Determinism and totality *)

(** ** The zero-hash table as state *)

Section CachedFacts.

Variable h : chunk -> chunk -> chunk.

Lemma well_formed_nil : SSZCached.well_formed h [].
Proof. reflexivity. Qed.

Lemma well_formed_table (n : nat) :
  SSZCached.well_formed h (map (zero_hash h) (seq 0 n)).
Proof.
  unfold SSZCached.well_formed. rewrite length_map, length_seq. reflexivity.
Qed.

Lemma next_zero_spec (n : nat) :
  SSZCached.next_zero h (map (zero_hash h) (seq 0 n)) = zero_hash h n.
Proof.
  unfold SSZCached.next_zero. destruct n as [ | k]; [ reflexivity | ].
  rewrite seq_S, map_app, rev_app_distr. reflexivity.
Qed.

Lemma populate_spec (n k : nat) :
  SSZCached.populate h n (map (zero_hash h) (seq 0 k))
  = map (zero_hash h) (seq 0 (k + n)).
Proof.
  revert k. induction n as [ | n IH]; intros k; cbn [SSZCached.populate].
  - rewrite Nat.add_0_r. reflexivity.
  - rewrite next_zero_spec.
    replace (map (zero_hash h) (seq 0 k) ++ [zero_hash h k])%list
      with (map (zero_hash h) (seq 0 (S k)))
      by (rewrite seq_S, map_app; reflexivity).
    rewrite IH. f_equal. f_equal. lia.
Qed.

Lemma table_nth (n i : nat) :
  (i < n)%nat ->
  nth_error (map (zero_hash h) (seq 0 n)) i = Some (zero_hash h i).
Proof.
  intros Hi. rewrite nth_error_map, nth_error_seq.
  destruct (Nat.ltb_spec i n); [ reflexivity | lia ].
Qed.

Lemma table_prefix (n m : nat) :
  (n <= m)%nat ->
  firstn n (map (zero_hash h) (seq 0 m)) = map (zero_hash h) (seq 0 n).
Proof.
  intros Hle. replace m with (n + (m - n))%nat by lia.
  rewrite seq_app, map_app, firstn_app.
  rewrite length_map, length_seq, Nat.sub_diag. cbn [firstn].
  rewrite app_nil_r. apply firstn_all2.
  rewrite length_map, length_seq. lia.
Qed.

Lemma computes_ret {A : Type} (a : A) : computes h (SSZCached.cret a) (Ok a).
Proof.
  intros table Hok. exists table. repeat split; [ exact Hok | ].
  apply firstn_all.
Qed.

Lemma computes_lift {A : Type} (r : Result A) :
  computes h (SSZCached.lift r) r.
Proof.
  intros table Hok. exists table. repeat split; [ exact Hok | ].
  apply firstn_all.
Qed.

Lemma computes_bind {A B : Type} (m : SSZCached.Cached A) (r : Result A)
      (k : A -> SSZCached.Cached B) (k' : A -> Result B) :
  computes h m r ->
  (forall a, r = Ok a -> computes h (k a) (k' a)) ->
  computes h (SSZCached.cbind m k) (bind r k').
Proof.
  intros Hm Hk table Hok.
  destruct (Hm table Hok) as [t1 [E1 [Hok1 Hpre1]]].
  unfold SSZCached.cbind. rewrite E1.
  destruct r as [a | e]; cbn [bind].
  - destruct (Hk a eq_refl t1 Hok1) as [t2 [E2 [Hok2 Hpre2]]].
    exists t2. repeat split; [ exact E2 | exact Hok2 | ].
    assert (Hle : (length table <= length t1)%nat).
    { pose proof (f_equal (@length chunk) Hpre1) as Hl.
      rewrite length_firstn in Hl. lia. }
    transitivity (firstn (length table) (firstn (length t1) t2)).
    + rewrite firstn_firstn. f_equal. lia.
    + rewrite Hpre2. exact Hpre1.
  - exists t1. repeat split; assumption.
Qed.

(** A lookup returns the zero hash of the level, whether it was stored or
    had to be computed. *)
Lemma zero_hash_computes (i : nat) :
  computes h (SSZCached.zero_hash h i) (Ok (zero_hash h i)).
Proof.
  intros table Hok. unfold SSZCached.well_formed in Hok.
  remember (length table) as n eqn:Hn. subst table. clear Hn.
  unfold SSZCached.zero_hash. rewrite length_map, length_seq.
  destruct (Nat.ltb_spec i n) as [Hlt | Hge].
  - rewrite table_nth by exact Hlt.
    exists (map (zero_hash h) (seq 0 n)).
    repeat split; [ apply well_formed_table | ].
    apply firstn_all2. rewrite length_map, length_seq. lia.
  - assert (Enone : nth_error (map (zero_hash h) (seq 0 n)) i = None)
      by (apply nth_error_None; rewrite length_map, length_seq; exact Hge).
    rewrite Enone. cbv zeta. rewrite populate_spec.
    replace (n + (S i - n))%nat with (S i) by lia.
    exists (map (zero_hash h) (seq 0 (S i))). repeat split.
    + f_equal. f_equal. apply nth_error_nth. apply table_nth. lia.
    + apply well_formed_table.
    + apply table_prefix. lia.
Qed.

Lemma hash_layer_computes (level : nat) (cs : list chunk) :
  computes h (SSZCached.hash_layer h level cs) (Ok (hash_layer h level cs)).
Proof.
  induction cs as [ | x | x y l IH] using list_pair_ind;
    cbn [SSZCached.hash_layer hash_layer].
  - apply computes_ret.
  - apply (computes_bind _ (Ok (zero_hash h level)) _
                         (fun z => Ok [h x z])).
    + apply zero_hash_computes.
    + intros a _. apply computes_ret.
  - apply (computes_bind _ (Ok (hash_layer h level l)) _
                         (fun t => Ok (h x y :: t))).
    + exact IH.
    + intros a _. apply computes_ret.
Qed.

Lemma reduce_computes (depth : nat) :
  forall (level : nat) (cs : list chunk),
    computes h (SSZCached.reduce h depth level cs)
             (Ok (reduce h depth level cs)).
Proof.
  induction depth as [ | d IH]; intros level cs;
    cbn [SSZCached.reduce reduce].
  - apply computes_ret.
  - apply (computes_bind _ (Ok (hash_layer h level cs)) _
                         (fun layer => Ok (reduce h d (S level) layer))).
    + apply hash_layer_computes.
    + intros a _. apply IH.
Qed.

Lemma merkle_root_computes (depth : nat) (cs : list chunk) :
  computes h (SSZCached.merkle_root h depth cs)
           (Ok (merkle_root h depth cs)).
Proof.
  unfold SSZCached.merkle_root, merkle_root.
  apply (computes_bind _ (Ok (reduce h depth 0 cs)) _
                       (fun top => Ok match top with
                                      | root :: _ => root
                                      | [] => zero_hash h depth
                                      end)).
  - apply reduce_computes.
  - intros [ | root rest] _; [ apply zero_hash_computes | apply computes_ret ].
Qed.

Lemma merkleize_computes (chunks : list chunk) (limit : option Z) :
  computes h (SSZCached.merkleize h chunks limit)
           (merkleize h chunks limit).
Proof.
  unfold SSZCached.merkleize, merkleize. destruct limit as [lim | ].
  - destruct (lim <? Z.of_nat (length chunks));
      [ apply computes_lift | apply merkle_root_computes ].
  - destruct (Z.of_nat (length chunks) =? 0);
      [ apply zero_hash_computes | apply merkle_root_computes ].
Qed.

Lemma mixin_computes (chunks : list chunk) (limit len : Z) :
  computes h (SSZCached.merkleize_with_length_mixin h chunks limit len)
           (merkleize_with_length_mixin h chunks limit len).
Proof.
  unfold SSZCached.merkleize_with_length_mixin, merkleize_with_length_mixin.
  apply computes_bind; [ apply merkleize_computes | ].
  intros root _. apply computes_bind; [ apply computes_lift | ].
  intros ser _. apply computes_ret.
Qed.

Lemma primitive_root_computes (ser : bytes) :
  computes h (SSZCached.primitive_root h ser) (primitive_root h ser).
Proof.
  unfold SSZCached.primitive_root, primitive_root.
  destruct (Nat.eqb (length ser) BYTES_PER_CHUNK); [ apply computes_ret | ].
  destruct (Nat.ltb (length ser) BYTES_PER_CHUNK); [ apply computes_ret | ].
  apply merkleize_computes.
Qed.

(** From every well-formed table the engine with the table as state returns
    what the engine over the precomputed table returns, and leaves a
    well-formed table. *)
Lemma hash_tree_root_computes (v : SSZValue) :
  computes h (SSZCached.hash_tree_root h v) (SSZ.hash_tree_root h v).
Proof.
  induction v as [w n | n data | name schema vals IH
                  | name elem limit data IH | name limit bits]
    using SSZValue_nested_ind;
    cbn [SSZCached.hash_tree_root SSZ.hash_tree_root].
  - apply computes_bind; [ apply computes_lift | ].
    intros ser _. apply primitive_root_computes.
  - apply computes_bind; [ apply computes_lift | ].
    intros ser _. apply primitive_root_computes.
  - apply computes_bind; [ | intros roots _; apply merkleize_computes ].
    induction IH as [ | [f x] t Hx _ IHt]; [ apply computes_ret | ].
    apply computes_bind; [ exact Hx | ].
    intros r _. apply computes_bind; [ exact IHt | ].
    intros rs _. apply computes_ret.
  - apply computes_bind; [ | intros chunks _; apply mixin_computes ].
    destruct (is_basic elem).
    + apply computes_bind; [ apply computes_lift | ].
      intros sers _. apply computes_ret.
    + induction IH as [ | x t Hx _ IHt]; [ apply computes_ret | ].
      apply computes_bind; [ exact Hx | ].
      intros r _. apply computes_bind; [ exact IHt | ].
      intros rs _. apply computes_ret.
  - apply mixin_computes.
Qed.

End CachedFacts.

(** C6.  [hash_tree_root] is deterministic: called again on a structurally
    equal fixed-size composite instance, on the table that the first call
    left behind, it returns the digest of the first call, and that digest
    has 32 bytes.  The same digest comes back from every table that calls in
    between can have left, and from the empty table of a fresh process.  The
    container [SimpleTest] with [slot = Uint64(0)] and
    [proposer_index = Uint32(0)] is such an instance. *)
Theorem hash_tree_root_repeatable (h : chunk -> chunk -> chunk)
        (table : SSZCached.Cache) (c1 c2 : SSZValue) :
  (forall a b, length (h a b) = BYTES_PER_CHUNK) ->
  SSZCached.well_formed h table ->
  is_composite (type_of c1) = true ->
  is_fixed_size (type_of c1) = true ->
  validated c1 = true ->
  c1 = c2 ->
  exists d table1 table2,
    SSZCached.hash_tree_root h c1 table = (Ok d, table1)
    /\ SSZCached.hash_tree_root h c2 table1 = (Ok d, table2)
    /\ length d = 32%nat
    /\ fst (SSZCached.hash_tree_root h c1 []) = Ok d
    /\ (forall later,
          SSZCached.well_formed h later ->
          fst (SSZCached.hash_tree_root h c2 later) = Ok d
          /\ SSZCached.well_formed
               h (snd (SSZCached.hash_tree_root h c2 later))).
Proof.
  intros Hh Hok _ _ Hv <-.
  destruct (hash_tree_root_total h Hh c1 Hv) as [d [Hd Hlen]].
  destruct (hash_tree_root_computes h c1 table Hok) as [t1 [E1 [Hok1 _]]].
  destruct (hash_tree_root_computes h c1 t1 Hok1) as [t2 [E2 _]].
  destruct (hash_tree_root_computes h c1 [] (well_formed_nil h))
    as [t0 [E0 _]].
  exists d, t1, t2. rewrite E1, E2, E0, Hd.
  do 4 (split; [ first [ reflexivity | exact Hlen ] | ]).
  intros later Hlater.
  destruct (hash_tree_root_computes h c1 later Hlater) as [t3 [E3 [Hok3 _]]].
  rewrite E3, Hd. split; [ reflexivity | exact Hok3 ].
Qed.

Lemma hash_tree_root_repeatable_witness :
  exists d table1 table2,
    SSZCached.hash_tree_root Sha256.hash_nodes simple_instance []
    = (Ok d, table1)
    /\ SSZCached.hash_tree_root Sha256.hash_nodes simple_instance table1
       = (Ok d, table2)
    /\ length d = 32%nat
    /\ fst (SSZCached.hash_tree_root Sha256.hash_nodes simple_instance [])
       = Ok d
    /\ (forall later,
          SSZCached.well_formed Sha256.hash_nodes later ->
          fst (SSZCached.hash_tree_root
                 Sha256.hash_nodes simple_instance later) = Ok d
          /\ SSZCached.well_formed
               Sha256.hash_nodes
               (snd (SSZCached.hash_tree_root
                       Sha256.hash_nodes simple_instance later))).
Proof.
  apply (hash_tree_root_repeatable
           Sha256.hash_nodes [] simple_instance simple_instance
           sha256_hash_nodes_length).
  - reflexivity.
  - vm_compute. reflexivity.
  - vm_compute. reflexivity.
  - vm_compute. reflexivity.
  - reflexivity.
Defined.

(** The first call on the block header of the debug script fills the empty
    table with [Z[0]] and [Z[1]]; the second call reads them and returns the
    same digest. *)
Example block_header_fills_table :
  SSZCached.hash_tree_root Sha256.hash_nodes block_header_test_instance []
  = (Ok (fromhex
           "c78009fdf07fc56a11f122370658a353aaa542ed63e44c4bc15ff4cd105ab33c"),
     map (zero_hash Sha256.hash_nodes) (seq 0 2))
  /\ SSZCached.hash_tree_root
       Sha256.hash_nodes block_header_test_instance
       (map (zero_hash Sha256.hash_nodes) (seq 0 2))
     = (Ok (fromhex
              "c78009fdf07fc56a11f122370658a353aaa542ed63e44c4bc15ff4cd105ab33c"),
        map (zero_hash Sha256.hash_nodes) (seq 0 2)).
Proof. split; vm_compute; reflexivity. Qed.

(** What each test of debug_simple_hash.py hands to [hash_tree_root]. *)
Lemma test_simple_container_call (htr : SSZValue -> Result bytes) :
  debug_simple_hash.test_simple_container htr
  = (hash_result <- htr simple_instance ;; Ok (hex hash_result)).
Proof. reflexivity. Qed.

Lemma test_config_call (htr : SSZValue -> Result bytes) :
  debug_simple_hash.test_config htr
  = (hash_result <- htr config_test_instance ;; Ok (hex hash_result)).
Proof. reflexivity. Qed.

Lemma test_block_header_call (htr : SSZValue -> Result bytes) :
  debug_simple_hash.test_block_header htr
  = (hash_result <- htr block_header_test_instance ;; Ok (hex hash_result)).
Proof. reflexivity. Qed.

Lemma test_checkpoint_call (htr : SSZValue -> Result bytes) :
  debug_simple_hash.test_checkpoint htr
  = (hash_result <- htr checkpoint_test_instance ;; Ok (hex hash_result)).
Proof. reflexivity. Qed.

Lemma main_call (htr : SSZValue -> Result bytes) :
  main htr
  = (hash_result <- htr beam_state_instance ;;
     if String.eqb (hex hash_result) zig_hash then Ok true else Ok false).
Proof. unfold main. rewrite create_beam_state_value. reflexivity. Qed.

(** C7.  Every [hash_tree_root] call the two scripts make on the instances
    they build ([SimpleTest], [ConfigTest], [BlockHeaderTest],
    [CheckpointTest] and the full [BeamState]) returns a 32-byte digest and
    raises nothing; the test functions and both [main] functions run to
    their end. *)
Theorem script_calls_return_digests (h : chunk -> chunk -> chunk) :
  (forall a b, length (h a b) = BYTES_PER_CHUNK) ->
  let htr := SSZ.hash_tree_root h in
  (exists d, htr simple_instance = Ok d /\ length d = 32%nat
             /\ debug_simple_hash.test_simple_container htr = Ok (hex d))
  /\ (exists d, htr config_test_instance = Ok d /\ length d = 32%nat
                /\ debug_simple_hash.test_config htr = Ok (hex d))
  /\ (exists d, htr block_header_test_instance = Ok d /\ length d = 32%nat
                /\ debug_simple_hash.test_block_header htr = Ok (hex d))
  /\ (exists d, htr checkpoint_test_instance = Ok d /\ length d = 32%nat
                /\ debug_simple_hash.test_checkpoint htr = Ok (hex d))
  /\ debug_simple_hash.main htr = Ok tt
  /\ (exists d, create_beam_state = Ok beam_state_instance
                /\ htr beam_state_instance = Ok d /\ length d = 32%nat
                /\ is_ok (main htr) = true
                /\ run htr = Exit0).
Proof.
  intros Hh htr.
  destruct (hash_tree_root_total h Hh simple_instance eq_refl)
    as [d1 [H1 L1]].
  destruct (hash_tree_root_total h Hh config_test_instance eq_refl)
    as [d2 [H2 L2]].
  destruct (hash_tree_root_total h Hh block_header_test_instance eq_refl)
    as [d3 [H3 L3]].
  destruct (hash_tree_root_total h Hh checkpoint_test_instance eq_refl)
    as [d4 [H4 L4]].
  destruct (hash_tree_root_total h Hh beam_state_instance beam_state_validated)
    as [d5 [H5 L5]].
  fold htr in H1, H2, H3, H4, H5.
  assert (T1 : debug_simple_hash.test_simple_container htr = Ok (hex d1))
    by (rewrite test_simple_container_call, H1; reflexivity).
  assert (T2 : debug_simple_hash.test_config htr = Ok (hex d2))
    by (rewrite test_config_call, H2; reflexivity).
  assert (T3 : debug_simple_hash.test_block_header htr = Ok (hex d3))
    by (rewrite test_block_header_call, H3; reflexivity).
  assert (T4 : debug_simple_hash.test_checkpoint htr = Ok (hex d4))
    by (rewrite test_checkpoint_call, H4; reflexivity).
  split; [ exists d1; auto | ].
  split; [ exists d2; auto | ].
  split; [ exists d3; auto | ].
  split; [ exists d4; auto | ].
  split.
  - unfold debug_simple_hash.main. rewrite T1, T2, T3, T4. reflexivity.
  - exists d5. split; [ exact create_beam_state_value | ].
    split; [ exact H5 | ]. split; [ exact L5 | ].
    unfold run. rewrite main_call, H5. cbn [bind].
    destruct (String.eqb (hex d5) zig_hash); split; reflexivity.
Qed.

Lemma script_calls_return_digests_witness :
  (forall a b, length (Sha256.hash_nodes a b) = BYTES_PER_CHUNK)
  /\ (exists d, lean_spec_hash_tree_root simple_instance = Ok d
                /\ length d = 32%nat
                /\ debug_simple_hash.test_simple_container
                     lean_spec_hash_tree_root = Ok (hex d))
  /\ (exists d, lean_spec_hash_tree_root config_test_instance = Ok d
                /\ length d = 32%nat
                /\ debug_simple_hash.test_config lean_spec_hash_tree_root
                   = Ok (hex d))
  /\ (exists d, lean_spec_hash_tree_root block_header_test_instance = Ok d
                /\ length d = 32%nat
                /\ debug_simple_hash.test_block_header
                     lean_spec_hash_tree_root = Ok (hex d))
  /\ (exists d, lean_spec_hash_tree_root checkpoint_test_instance = Ok d
                /\ length d = 32%nat
                /\ debug_simple_hash.test_checkpoint lean_spec_hash_tree_root
                   = Ok (hex d))
  /\ debug_simple_hash.main lean_spec_hash_tree_root = Ok tt
  /\ (exists d, create_beam_state = Ok beam_state_instance
                /\ lean_spec_hash_tree_root beam_state_instance = Ok d
                /\ length d = 32%nat
                /\ is_ok (main lean_spec_hash_tree_root) = true
                /\ run lean_spec_hash_tree_root = Exit0).
Proof.
  split; [ exact sha256_hash_nodes_length | ].
  exact (script_calls_return_digests
           Sha256.hash_nodes sha256_hash_nodes_length).
Defined.

(** ** The mirrored classes *)

Lemma new_container_ignores_name (name name' : string)
      (schema : list (string * SSZType)) (kwargs : list (string * SSZValue))
      (h : chunk -> chunk -> chunk) :
  (v <- new (TContainer name schema) (AFields kwargs) ;;
   SSZ.hash_tree_root h v)
  = (v <- new (TContainer name' schema) (AFields kwargs) ;;
     SSZ.hash_tree_root h v).
Proof.
  cbn [new].
  destruct (forallb (fun kv => declared schema (fst kv)) kwargs);
    [ | reflexivity ].
  destruct (bind_fields schema kwargs) as [vals | e]; reflexivity.
Qed.

(** C8.  [ConfigTest], [BlockHeaderTest] and [CheckpointTest] of
    debug_simple_hash.py declare the same fields, with the same names and
    types and in the same order, as [BeamStateConfig], [BeamBlockHeader] and
    [Mini3SFCheckpoint] of validate_beam_state_hash.py; built from equal
    field values, an instance of either class of a pair has the same
    digest. *)
Theorem debug_classes_mirror_beam_classes :
  fields_of debug_simple_hash.ConfigTest = fields_of BeamStateConfig
  /\ fields_of debug_simple_hash.BlockHeaderTest = fields_of BeamBlockHeader
  /\ fields_of debug_simple_hash.CheckpointTest = fields_of Mini3SFCheckpoint
  /\ forall (h : chunk -> chunk -> chunk)
            (kwargs : list (string * SSZValue)),
      (v <- new debug_simple_hash.ConfigTest (AFields kwargs) ;;
       SSZ.hash_tree_root h v)
      = (v <- new BeamStateConfig (AFields kwargs) ;; SSZ.hash_tree_root h v)
      /\ (v <- new debug_simple_hash.BlockHeaderTest (AFields kwargs) ;;
          SSZ.hash_tree_root h v)
         = (v <- new BeamBlockHeader (AFields kwargs) ;;
            SSZ.hash_tree_root h v)
      /\ (v <- new debug_simple_hash.CheckpointTest (AFields kwargs) ;;
          SSZ.hash_tree_root h v)
         = (v <- new Mini3SFCheckpoint (AFields kwargs) ;;
            SSZ.hash_tree_root h v).
Proof.
  repeat (split; [ reflexivity | ]).
  intros h kwargs. repeat split; apply new_container_ignores_name.
Qed.

(** * Further properties of the scripts *)

(** ** Hexadecimal rendering *)

Lemma hex_byte_round_trip (x : byte) :
  byte_of_Z (16 * hex_value (hex_digit (byte_to_Z x / 16))
             + hex_value (hex_digit (byte_to_Z x mod 16))) = x.
Proof. destruct x; vm_compute; reflexivity. Qed.

Lemma fromhex_hex (b : bytes) : fromhex (hex b) = b.
Proof.
  induction b as [ | x t IH]; [ reflexivity | ].
  cbn [hex fromhex]. rewrite hex_byte_round_trip, IH. reflexivity.
Qed.

Lemma hex_injective (a b : bytes) : hex a = hex b -> a = b.
Proof.
  intros H. rewrite <- (fromhex_hex a), <- (fromhex_hex b), H. reflexivity.
Qed.

Lemma hex_length (b : bytes) : String.length (hex b) = (2 * length b)%nat.
Proof.
  induction b as [ | x t IH]; [ reflexivity | ].
  cbn [hex String.length length]. rewrite IH. lia.
Qed.

Lemma hex_digits_lowercase (b : bytes) :
  Forall (fun c => In c (list_ascii_of_string "0123456789abcdef"))
         (list_ascii_of_string (hex b)).
Proof.
  induction b as [ | x t IH]; [ constructor | ].
  cbn [hex list_ascii_of_string].
  constructor; [ | constructor; [ | exact IH ] ];
    destruct x; vm_compute; tauto.
Qed.

(** ** The validation script and its output *)

Lemma validate_main_run (htr : SSZValue -> Result bytes)
      (fmt : SSZValue -> string) :
  validate_beam_state_hash_io.main htr fmt
  = match htr beam_state_instance with
    | Ok d =>
        ((structure_dump fmt ++ digest_lines d
          ++ verdict_lines (String.eqb (hex d) zig_hash))%list,
         Returned (String.eqb (hex d) zig_hash))
    | Err e => (structure_dump fmt, Raised (LibraryError e))
    end.
Proof.
  unfold validate_beam_state_hash_io.main.
  rewrite create_beam_state_value.
  destruct (htr beam_state_instance) as [d | e] eqn:E.
  - cbn -[hex String.eqb zig_hash]. rewrite E. cbn -[hex String.eqb zig_hash].
    destruct (String.eqb (hex d) zig_hash); reflexivity.
  - cbn -[hex String.eqb zig_hash]. rewrite E. reflexivity.
Qed.

Import validate_beam_state_hash_io.

Lemma created_state_is_instance (st : SSZValue) :
  create_beam_state = Ok st -> st = beam_state_instance.
Proof. rewrite create_beam_state_value. intros [= <-]. reflexivity. Qed.

(** X1.  The comparison of hexadecimal strings in [main] is a comparison of
    digests: [main] returns [True] exactly when [hash_tree_root] returned
    the 32 bytes that the literal spells, and so never for a digest of
    another length. *)
Theorem main_true_iff_digest_bytes
        (hash_tree_root : SSZValue -> Result bytes)
        (beam_state : SSZValue) (hash_result : bytes) :
  create_beam_state = Ok beam_state ->
  hash_tree_root beam_state = Ok hash_result ->
  (validate_beam_state_hash.main hash_tree_root = Ok true
   <-> hash_result = fromhex zig_hash)
  /\ (validate_beam_state_hash.main hash_tree_root = Ok true
      -> length hash_result = 32%nat)
  /\ (validate_beam_state_hash.main hash_tree_root = Ok false
      <-> hash_result <> fromhex zig_hash).
Proof.
  intros Hst Hd. apply created_state_is_instance in Hst. subst beam_state.
  rewrite main_call, Hd. cbn [bind].
  assert (E : hex hash_result = zig_hash <-> hash_result = fromhex zig_hash).
  { split; intros H.
    - rewrite <- H. symmetry. apply fromhex_hex.
    - rewrite H. reflexivity. }
  destruct (String.eqb_spec (hex hash_result) zig_hash) as [Heq | Hne].
  - apply E in Heq. repeat split; intros; subst; try reflexivity;
      try discriminate; try contradiction.
  - assert (Hne' : hash_result <> fromhex zig_hash)
      by (intros H; apply Hne, E, H).
    repeat split; intros; try discriminate; try contradiction;
      try assumption; try reflexivity.
Qed.

Lemma main_true_iff_digest_bytes_witness :
  (validate_beam_state_hash.main lean_spec_hash_tree_root = Ok true
   <-> beam_state_digest = fromhex zig_hash)
  /\ (validate_beam_state_hash.main lean_spec_hash_tree_root = Ok true
      -> length beam_state_digest = 32%nat)
  /\ (validate_beam_state_hash.main lean_spec_hash_tree_root = Ok false
      <-> beam_state_digest <> fromhex zig_hash).
Proof.
  exact (main_true_iff_digest_bytes
           lean_spec_hash_tree_root beam_state_instance beam_state_digest
           create_beam_state_value beam_state_sha256_digest).
Defined.

Lemma ascii_text_app (a b : string) :
  ascii_text (a ++ b) = ascii_text a && ascii_text b.
Proof.
  induction a as [ | c t IH]; [ reflexivity | ].
  cbn [append ascii_text]. rewrite IH. apply andb_assoc.
Qed.

Lemma ascii_text_hex (b : bytes) : ascii_text (hex b) = true.
Proof.
  induction b as [ | x t IH]; [ reflexivity | ].
  cbn [hex ascii_text]. rewrite IH.
  destruct x; reflexivity.
Qed.

Ltac ascii_line Hfmt :=
  repeat (progress (cbn -[hex];
                    rewrite ?ascii_text_app, ?Hfmt, ?ascii_text_hex));
  reflexivity.

(** With a terminal that takes ASCII text, and integers formatted in ASCII,
    only the verdict line can fail to print. *)
Lemma validate_main_run_encoded (htr : SSZValue -> Result bytes)
      (fmt : SSZValue -> string) (can_encode : string -> bool) :
  (forall s, ascii_text s = true -> can_encode s = true) ->
  (forall v, ascii_text (fmt v) = true) ->
  validate_beam_state_hash_tty.main htr fmt (print_encoded can_encode)
  = match htr beam_state_instance with
    | Ok d =>
        let matches := String.eqb (hex d) zig_hash in
        if can_encode (verdict_line matches)
        then ((structure_dump fmt ++ digest_lines d
               ++ verdict_lines matches)%list,
              Returned matches)
        else ((structure_dump fmt ++ digest_lines d)%list,
              Raised (UnicodeEncodeError (verdict_line matches)))
    | Err e => (structure_dump fmt, Raised (LibraryError e))
    end.
Proof.
  intros Hascii Hfmt.
  unfold validate_beam_state_hash_tty.main.
  rewrite create_beam_state_value. unfold print_encoded.
  cbn -[hex SUCCESS MISMATCH structure_dump digest_lines verdict_lines verdict_line].
  repeat match goal with
         | |- context [can_encode ?s] =>
             let H := fresh "H" in
             assert (H : can_encode s = true)
               by (apply Hascii; ascii_line Hfmt);
             rewrite H; clear H
         end.
  cbn -[hex SUCCESS MISMATCH structure_dump digest_lines verdict_lines verdict_line].
  destruct (htr beam_state_instance) as [d | e];
    cbn -[hex SUCCESS MISMATCH structure_dump digest_lines verdict_lines verdict_line]; [ | reflexivity ].
  repeat match goal with
         | |- context [can_encode ?s] =>
             let H := fresh "H" in
             assert (H : can_encode s = true)
               by (apply Hascii; ascii_line Hfmt);
             rewrite H; clear H
         end.
  cbn -[hex SUCCESS MISMATCH structure_dump digest_lines verdict_lines verdict_line].
  match goal with
  | |- context [String.eqb (hex d) ?z] => destruct (String.eqb (hex d) z)
  end; cbn [verdict_line];
    cbn -[hex SUCCESS MISMATCH structure_dump digest_lines verdict_lines verdict_line];
    match goal with
    | |- context [can_encode ?s] => destruct (can_encode s)
    end; reflexivity.
Qed.

(** X2.  [main] catches nothing, and its verdict line holds U+2705 or
    U+274C.  On a terminal that takes ASCII text, with the integers of the
    dump formatted in ASCII, the script ends with exit status 1 exactly when
    [hash_tree_root] raises or the terminal cannot encode the verdict line.
    In the first case the banner, the dump and the announcement are out and
    nothing follows; in the second the two digest lines are out as well and
    the verdict is never shown, whether the digests match or not.  Neither
    verdict line is ASCII text. *)
Theorem main_exit_status_one_causes
        (hash_tree_root : SSZValue -> Result bytes)
        (format_uint : SSZValue -> string) (can_encode : string -> bool)
        (beam_state : SSZValue) :
  create_beam_state = Ok beam_state ->
  (forall s, ascii_text s = true -> can_encode s = true) ->
  (forall v, ascii_text (format_uint v) = true) ->
  let run := validate_beam_state_hash_tty.main
               hash_tree_root format_uint (print_encoded can_encode) in
  let verdict d := verdict_line (String.eqb (hex d) zig_hash) in
  (exit_status run = 1
   <-> (exists e, hash_tree_root beam_state = Err e)
       \/ (exists d, hash_tree_root beam_state = Ok d
                     /\ can_encode (verdict d) = false))
  /\ (forall e,
        hash_tree_root beam_state = Err e ->
        outcome run = Raised (LibraryError e)
        /\ stdout run = structure_dump format_uint)
  /\ (forall d,
        hash_tree_root beam_state = Ok d ->
        can_encode (verdict d) = false ->
        outcome run = Raised (UnicodeEncodeError (verdict d))
        /\ stdout run = (structure_dump format_uint ++ digest_lines d)%list)
  /\ (forall d,
        hash_tree_root beam_state = Ok d ->
        can_encode (verdict d) = true ->
        outcome run = Returned (String.eqb (hex d) zig_hash)
        /\ exit_status run = 0)
  /\ (forall matches, ascii_text (verdict_line matches) = false).
Proof.
  intros Hst Hascii Hfmt run verdict.
  apply created_state_is_instance in Hst. subst beam_state.
  subst run verdict. unfold exit_status, outcome, stdout.
  rewrite (validate_main_run_encoded _ _ _ Hascii Hfmt).
  destruct (hash_tree_root beam_state_instance) as [d | e]; cbv zeta.
  - destruct (can_encode (verdict_line (String.eqb (hex d) zig_hash)))
      eqn:Hv; cbn [fst snd].
    + split; [ split | ].
      * discriminate.
      * intros [[e He] | [d' [[= <-] Hd']]]; [ discriminate He | ].
        rewrite Hv in Hd'. discriminate Hd'.
      * split; [ intros e He; discriminate He | ].
        split; [ intros d' [= <-] Hd'; rewrite Hv in Hd'; discriminate Hd' | ].
        split; [ intros d' [= <-] _; split; reflexivity | ].
        intros [ | ]; reflexivity.
    + split; [ split | ].
      * intros _. right. exists d. split; [ reflexivity | exact Hv ].
      * reflexivity.
      * split; [ intros e He; discriminate He | ].
        split; [ intros d' [= <-] _; split; reflexivity | ].
        split; [ intros d' [= <-] Hd'; rewrite Hv in Hd'; discriminate Hd' | ].
        intros [ | ]; reflexivity.
  - cbn [fst snd]. split; [ split | ].
    + intros _. left. exists e. reflexivity.
    + reflexivity.
    + split; [ intros e' [= <-]; split; reflexivity | ].
      split; [ intros d Hd; discriminate Hd | ].
      split; [ intros d Hd; discriminate Hd | ].
      intros [ | ]; reflexivity.
Qed.

(** On an ASCII terminal the script ends with exit status 1 although the
    digests match. *)
Lemma main_exit_status_one_causes_witness :
  let run := validate_beam_state_hash_tty.main
               (fun _ => Ok zig_digest) (fun _ => "0")
               (print_encoded ascii_text) in
  let verdict d := verdict_line (String.eqb (hex d) zig_hash) in
  (exit_status run = 1
   <-> (exists e, @Ok bytes zig_digest = Err e)
       \/ (exists d, Ok zig_digest = Ok d
                     /\ ascii_text (verdict d) = false))
  /\ (forall e,
        @Ok bytes zig_digest = Err e ->
        outcome run = Raised (LibraryError e)
        /\ stdout run = structure_dump (fun _ => "0"))
  /\ (forall d,
        Ok zig_digest = Ok d ->
        ascii_text (verdict d) = false ->
        outcome run = Raised (UnicodeEncodeError (verdict d))
        /\ stdout run
           = (structure_dump (fun _ => "0") ++ digest_lines d)%list)
  /\ (forall d,
        Ok zig_digest = Ok d ->
        ascii_text (verdict d) = true ->
        outcome run = Returned (String.eqb (hex d) zig_hash)
        /\ exit_status run = 0)
  /\ (forall matches, ascii_text (verdict_line matches) = false).
Proof.
  exact (main_exit_status_one_causes
           (fun _ => Ok zig_digest) (fun _ => "0") ascii_text
           beam_state_instance create_beam_state_value
           (fun s H => H) (fun _ => eq_refl)).
Defined.

(** A terminal that takes every text leaves one cause only. *)
Remark main_exit_status_on_utf8
       (hash_tree_root : SSZValue -> Result bytes)
       (format_uint : SSZValue -> string) :
  validate_beam_state_hash_tty.main hash_tree_root format_uint
    (print_encoded (fun _ => true))
  = validate_beam_state_hash_io.main hash_tree_root format_uint.
Proof. reflexivity. Qed.

(** No line of the dump and neither digest line is a verdict line. *)
Lemma success_not_before_verdict (fmt : SSZValue -> string) (d : bytes) :
  ~ In SUCCESS (structure_dump fmt ++ digest_lines d)%list.
Proof.
  unfold structure_dump, digest_lines. cbn [app In]. intros H.
  repeat (destruct H as [H | H]; [ vm_compute in H; discriminate H | ]).
  exact H.
Qed.

Lemma mismatch_not_before_verdict (fmt : SSZValue -> string) (d : bytes) :
  ~ In MISMATCH (structure_dump fmt ++ digest_lines d)%list.
Proof.
  unfold structure_dump, digest_lines. cbn [app In]. intros H.
  repeat (destruct H as [H | H]; [ vm_compute in H; discriminate H | ]).
  exact H.
Qed.

Lemma success_not_in_dump (fmt : SSZValue -> string) :
  ~ In SUCCESS (structure_dump fmt).
Proof.
  intros H. apply (success_not_before_verdict fmt []).
  apply in_or_app. left. exact H.
Qed.

Lemma mismatch_not_in_dump (fmt : SSZValue -> string) :
  ~ In MISMATCH (structure_dump fmt).
Proof.
  intros H. apply (mismatch_not_before_verdict fmt []).
  apply in_or_app. left. exact H.
Qed.

(** X3.  The exit status does not tell a match from a mismatch; standard
    output does.  Whatever [hash_tree_root] does and however the dump is
    formatted, the SUCCESS line is printed exactly when [main] returns
    [True] and the MISMATCH line exactly when it returns [False]. *)
Theorem verdict_is_on_stdout
        (hash_tree_root : SSZValue -> Result bytes)
        (format_uint : SSZValue -> string) :
  (In SUCCESS (stdout (main hash_tree_root format_uint))
   <-> outcome (main hash_tree_root format_uint) = Returned true)
  /\ (In MISMATCH (stdout (main hash_tree_root format_uint))
      <-> outcome (main hash_tree_root format_uint) = Returned false).
Proof.
  unfold stdout, outcome. rewrite validate_main_run.
  destruct (hash_tree_root beam_state_instance) as [d | e]; cbn [fst snd].
  - rewrite app_assoc.
    destruct (String.eqb (hex d) zig_hash); cbn [verdict_lines];
      split; split; intros H; try reflexivity; try discriminate H.
    + apply in_or_app. right. left. reflexivity.
    + apply in_app_or in H. destruct H as [H | H].
      * exfalso. exact (mismatch_not_before_verdict _ _ H).
      * cbn [In] in H. destruct H as [H | [ ]].
        vm_compute in H. discriminate H.
    + apply in_app_or in H. destruct H as [H | H].
      * exfalso. exact (success_not_before_verdict _ _ H).
      * cbn [In] in H.
        repeat (destruct H as [H | H]; [ vm_compute in H; discriminate H | ]).
        destruct H.
    + apply in_or_app. right. left. reflexivity.
  - split; split; intros H; try discriminate H; exfalso.
    + exact (success_not_in_dump _ H).
    + exact (mismatch_not_in_dump _ H).
Qed.

(** X4.  What a reader of the output sees agrees with the verdict.  When
    [hash_tree_root] returns, the fourteenth and fifteenth printed lines
    show the hexadecimal rendering of the digest and the literal of the
    comparison, and [main] returns [True] exactly when the two shown
    strings are equal. *)
Theorem shown_digests_decide_verdict
        (hash_tree_root : SSZValue -> Result bytes)
        (format_uint : SSZValue -> string)
        (beam_state : SSZValue) (hash_result : bytes) :
  create_beam_state = Ok beam_state ->
  hash_tree_root beam_state = Ok hash_result ->
  exists shown_python shown_zig : string,
    nth_error (stdout (main hash_tree_root format_uint)) 13
    = Some (nl ++ "Python leanSpec hash tree root: " ++ shown_python)
    /\ nth_error (stdout (main hash_tree_root format_uint)) 14
       = Some ("Zig implementation hash tree root: " ++ shown_zig)
    /\ fromhex shown_python = hash_result
    /\ (outcome (main hash_tree_root format_uint) = Returned true
        <-> shown_python = shown_zig)
    /\ (outcome (main hash_tree_root format_uint) = Returned false
        <-> shown_python <> shown_zig).
Proof.
  intros Hst Hd. apply created_state_is_instance in Hst. subst beam_state.
  exists (hex hash_result), zig_hash.
  unfold stdout, outcome. rewrite validate_main_run, Hd. cbn [fst snd].
  split; [ reflexivity | ]. split; [ reflexivity | ].
  split; [ apply fromhex_hex | ].
  destruct (String.eqb_spec (hex hash_result) zig_hash) as [E | NE];
    split; split; intros H; try reflexivity; try assumption;
    try discriminate H; contradiction.
Qed.

Lemma shown_digests_decide_verdict_witness :
  exists shown_python shown_zig : string,
    nth_error (stdout (main lean_spec_hash_tree_root format_uint_decimal)) 13
    = Some (nl ++ "Python leanSpec hash tree root: " ++ shown_python)
    /\ nth_error (stdout (main lean_spec_hash_tree_root format_uint_decimal))
                 14
       = Some ("Zig implementation hash tree root: " ++ shown_zig)
    /\ fromhex shown_python = beam_state_digest
    /\ (outcome (main lean_spec_hash_tree_root format_uint_decimal)
        = Returned true <-> shown_python = shown_zig)
    /\ (outcome (main lean_spec_hash_tree_root format_uint_decimal)
        = Returned false <-> shown_python <> shown_zig).
Proof.
  exact (shown_digests_decide_verdict
           lean_spec_hash_tree_root format_uint_decimal
           beam_state_instance beam_state_digest
           create_beam_state_value beam_state_sha256_digest).
Defined.

(** X6.  The dump of the collections is written with constants, not read
    from the state, and still describes the state that was built: each of
    the four lines names a field that holds an empty collection, and shows
    the LIMIT of the class of that field. *)
Theorem dump_describes_collections
        (hash_tree_root : SSZValue -> Result bytes)
        (format_uint : SSZValue -> string) :
  exists beam_state hashes slots roots validators l8 l9 l10 l11,
    create_beam_state = Ok beam_state
    /\ field beam_state "historical_block_hashes" = Some hashes
    /\ field beam_state "justified_slots" = Some slots
    /\ field beam_state "justifications_roots" = Some roots
    /\ field beam_state "justifications_validators" = Some validators
    /\ nth_error (stdout (main hash_tree_root format_uint)) 8 = Some l8
    /\ nth_error (stdout (main hash_tree_root format_uint)) 9 = Some l9
    /\ nth_error (stdout (main hash_tree_root format_uint)) 10 = Some l10
    /\ nth_error (stdout (main hash_tree_root format_uint)) 11 = Some l11
    /\ describes l8 "  historical_block_hashes: empty list (capacity: " ")"
                 hashes
    /\ describes l9 "  justified_slots: empty bitlist (capacity: " " bits)"
                 slots
    /\ describes l10 "  justifications_roots: empty list (capacity: " ")"
                 roots
    /\ describes l11 "  justifications_validators: empty bitlist (capacity: "
                 " bits)" validators.
Proof.
  exists beam_state_instance. do 8 eexists.
  split; [ exact create_beam_state_value | ].
  do 4 (split; [ reflexivity | ]).
  unfold stdout. rewrite validate_main_run.
  assert (E : forall n,
             (n < 13)%nat ->
             nth_error
               (fst match hash_tree_root beam_state_instance with
                    | Ok d =>
                        ((structure_dump format_uint ++ digest_lines d
                          ++ verdict_lines (String.eqb (hex d) zig_hash))%list,
                         Returned (String.eqb (hex d) zig_hash))
                    | Err e =>
                        (structure_dump format_uint, Raised (LibraryError e))
                    end) n
             = nth_error (structure_dump format_uint) n).
  { intros n Hn. destruct (hash_tree_root beam_state_instance); cbn [fst];
      [ | reflexivity ].
    apply nth_error_app1. exact Hn. }
  rewrite !E by lia.
  do 4 (split; [ reflexivity | ]).
  repeat split; eexists; (split; [ reflexivity | ]); reflexivity.
Qed.

(** ** The debug script and its output *)

Lemma test_simple_container_run (htr : SSZValue -> Result bytes) :
  debug_simple_hash_io.test_simple_container htr
  = match htr simple_instance with
    | Ok d => (["=== Test 1: Simple Container ===";
                "Simple container hash: " ++ hex d], Returned (hex d))
    | Err e => (["=== Test 1: Simple Container ==="],
                Raised (LibraryError e))
    end.
Proof.
  unfold debug_simple_hash_io.test_simple_container. cbn -[hex].
  match goal with |- context [htr ?v] => change v with simple_instance end.
  destruct (htr simple_instance); reflexivity.
Qed.

Lemma test_config_run (htr : SSZValue -> Result bytes) :
  debug_simple_hash_io.test_config htr
  = match htr config_test_instance with
    | Ok d => ([nl ++ "=== Test 2: Config Only ===";
                "Config hash: " ++ hex d], Returned (hex d))
    | Err e => ([nl ++ "=== Test 2: Config Only ==="],
                Raised (LibraryError e))
    end.
Proof.
  unfold debug_simple_hash_io.test_config. cbn -[hex].
  match goal with
  | |- context [htr ?v] => change v with config_test_instance
  end.
  destruct (htr config_test_instance); reflexivity.
Qed.

Lemma test_block_header_run (htr : SSZValue -> Result bytes) :
  debug_simple_hash_io.test_block_header htr
  = match htr block_header_test_instance with
    | Ok d => ([nl ++ "=== Test 3: Block Header ===";
                "Block header hash: " ++ hex d], Returned (hex d))
    | Err e => ([nl ++ "=== Test 3: Block Header ==="],
                Raised (LibraryError e))
    end.
Proof.
  unfold debug_simple_hash_io.test_block_header. cbn -[hex].
  match goal with
  | |- context [htr ?v] => change v with block_header_test_instance
  end.
  destruct (htr block_header_test_instance); reflexivity.
Qed.

Lemma test_checkpoint_run (htr : SSZValue -> Result bytes) :
  debug_simple_hash_io.test_checkpoint htr
  = match htr checkpoint_test_instance with
    | Ok d => ([nl ++ "=== Test 4: Checkpoint ===";
                "Checkpoint hash: " ++ hex d], Returned (hex d))
    | Err e => ([nl ++ "=== Test 4: Checkpoint ==="],
                Raised (LibraryError e))
    end.
Proof.
  unfold debug_simple_hash_io.test_checkpoint. cbn -[hex].
  match goal with
  | |- context [htr ?v] => change v with checkpoint_test_instance
  end.
  destruct (htr checkpoint_test_instance); reflexivity.
Qed.

Ltac debug_main_cases htr :=
  unfold exit_status, outcome, stdout, debug_calls,
    debug_simple_hash_io.main;
  rewrite test_simple_container_run, test_config_run,
    test_block_header_run, test_checkpoint_run;
  destruct (htr simple_instance) as [d1 | e1];
  [ destruct (htr config_test_instance) as [d2 | e2];
    [ destruct (htr block_header_test_instance) as [d3 | e3];
      [ destruct (htr checkpoint_test_instance) as [d4 | e4] | ] | ] | ];
  cbn [io_bind print io_ret fst snd app is_ok andb first_error].

Ltac refute_line H :=
  match type of H with
  | In _ _ =>
      exfalso; cbn [In] in H;
      repeat (destruct H as [H | H]; [ vm_compute in H; discriminate H | ]);
      destruct H
  end.

(** X7.  The debug script ends with exit status 0 exactly when all four
    calls of [hash_tree_root] return, and the analysis at the end is printed
    in exactly that case; with any call raising, the script ends with a
    traceback and without the analysis. *)
Theorem debug_main_completes_iff_all_return
        (hash_tree_root : SSZValue -> Result bytes) :
  (exit_status (debug_simple_hash_io.main hash_tree_root) = 0
   <-> forallb is_ok (debug_calls hash_tree_root) = true)
  /\ (In debug_simple_hash_io.ANALYSIS
         (stdout (debug_simple_hash_io.main hash_tree_root))
      <-> exit_status (debug_simple_hash_io.main hash_tree_root) = 0)
  /\ (outcome (debug_simple_hash_io.main hash_tree_root) = Returned tt
      <-> exit_status (debug_simple_hash_io.main hash_tree_root) = 0).
Proof.
  debug_main_cases hash_tree_root; cbn [forallb is_ok andb];
    repeat split; intros H; try reflexivity; try discriminate H;
    try refute_line H.
  cbn [In]. do 9 right. left. reflexivity.
Qed.

(** X8.  The tests run in the order of the source and the first call that
    raises ends the run: the header of a test is printed exactly when every
    earlier call of [hash_tree_root] returned. *)
Theorem debug_tests_run_in_order
        (hash_tree_root : SSZValue -> Result bytes) :
  In "=== Test 1: Simple Container ==="
     (stdout (debug_simple_hash_io.main hash_tree_root))
  /\ (In (nl ++ "=== Test 2: Config Only ===")
         (stdout (debug_simple_hash_io.main hash_tree_root))
      <-> forallb is_ok (firstn 1 (debug_calls hash_tree_root)) = true)
  /\ (In (nl ++ "=== Test 3: Block Header ===")
         (stdout (debug_simple_hash_io.main hash_tree_root))
      <-> forallb is_ok (firstn 2 (debug_calls hash_tree_root)) = true)
  /\ (In (nl ++ "=== Test 4: Checkpoint ===")
         (stdout (debug_simple_hash_io.main hash_tree_root))
      <-> forallb is_ok (firstn 3 (debug_calls hash_tree_root)) = true).
Proof.
  debug_main_cases hash_tree_root; cbn [firstn forallb is_ok andb];
    (split; [ cbn [In]; right; left; reflexivity | ]);
    repeat split; intros H; try reflexivity; try discriminate H;
    try refute_line H;
    cbn [In]; auto 12.
Qed.

(** X9.  The exception that ends the debug script is the error of the first
    failing call of [hash_tree_root]; the script raises nothing of its
    own. *)
Theorem debug_main_raises_first_error
        (hash_tree_root : SSZValue -> Result bytes) :
  (forall e,
      outcome (debug_simple_hash_io.main hash_tree_root)
      = Raised (LibraryError e)
      <-> first_error (debug_calls hash_tree_root) = Some e)
  /\ (forall attr,
         outcome (debug_simple_hash_io.main hash_tree_root)
         <> Raised (AttributeError attr)).
Proof.
  debug_main_cases hash_tree_root;
    (split; [ intros e; split; intros H; try discriminate H;
              injection H as ->; reflexivity
            | intros attr H; discriminate H ]).
Qed.

Lemma reports_hex (label header : string) (d : bytes) :
  reports label d ([header; label ++ hex d], Returned (hex d)).
Proof.
  exists (hex d). unfold outcome, stdout. cbn [fst snd last].
  repeat split.
  - apply fromhex_hex.
  - apply hex_length.
  - apply hex_digits_lowercase.
Qed.

(** X11.  A test of the debug script returns the string it prints: when its
    [hash_tree_root] call returns a digest, the returned string is what the
    last printed line shows after the label, it has two lowercase
    hexadecimal digits per byte of the digest, and the digest is read back
    from it. *)
Theorem debug_tests_report_digest
        (hash_tree_root : SSZValue -> Result bytes) (d1 d2 d3 d4 : bytes) :
  hash_tree_root simple_instance = Ok d1 ->
  hash_tree_root config_test_instance = Ok d2 ->
  hash_tree_root block_header_test_instance = Ok d3 ->
  hash_tree_root checkpoint_test_instance = Ok d4 ->
  reports "Simple container hash: " d1
          (debug_simple_hash_io.test_simple_container hash_tree_root)
  /\ reports "Config hash: " d2
             (debug_simple_hash_io.test_config hash_tree_root)
  /\ reports "Block header hash: " d3
             (debug_simple_hash_io.test_block_header hash_tree_root)
  /\ reports "Checkpoint hash: " d4
             (debug_simple_hash_io.test_checkpoint hash_tree_root).
Proof.
  intros H1 H2 H3 H4.
  rewrite test_simple_container_run, test_config_run,
    test_block_header_run, test_checkpoint_run, H1, H2, H3, H4.
  repeat split; apply reports_hex.
Qed.

Lemma debug_tests_report_digest_witness :
  reports "Simple container hash: " zig_digest
          (debug_simple_hash_io.test_simple_container
             (fun _ => Ok zig_digest))
  /\ reports "Config hash: " zig_digest
             (debug_simple_hash_io.test_config (fun _ => Ok zig_digest))
  /\ reports "Block header hash: " zig_digest
             (debug_simple_hash_io.test_block_header
                (fun _ => Ok zig_digest))
  /\ reports "Checkpoint hash: " zig_digest
             (debug_simple_hash_io.test_checkpoint
                (fun _ => Ok zig_digest)).
Proof.
  exact (debug_tests_report_digest
           (fun _ => Ok zig_digest)
           zig_digest zig_digest zig_digest zig_digest
           eq_refl eq_refl eq_refl eq_refl).
Defined.

(** ** The two scripts side by side *)

(** X12.  Tests 2, 3 and 4 of the debug script hash the very subtrees of the
    state that the validation script builds: under the Merkleization of the
    engine, with any node hash, [test_config], [test_block_header] and
    [test_checkpoint] return the hexadecimal roots of the fields [config],
    [latest_block_header] and [latest_justified] (which is also
    [latest_finalized]) of that state. *)
Theorem debug_tests_hash_state_subtrees (h : chunk -> chunk -> chunk) :
  exists beam_state config header justified finalized,
    create_beam_state = Ok beam_state
    /\ field beam_state "config" = Some config
    /\ field beam_state "latest_block_header" = Some header
    /\ field beam_state "latest_justified" = Some justified
    /\ field beam_state "latest_finalized" = Some finalized
    /\ debug_simple_hash.test_config (SSZ.hash_tree_root h)
       = (root <- SSZ.hash_tree_root h config ;; Ok (hex root))
    /\ debug_simple_hash.test_block_header (SSZ.hash_tree_root h)
       = (root <- SSZ.hash_tree_root h header ;; Ok (hex root))
    /\ debug_simple_hash.test_checkpoint (SSZ.hash_tree_root h)
       = (root <- SSZ.hash_tree_root h justified ;; Ok (hex root))
    /\ debug_simple_hash.test_checkpoint (SSZ.hash_tree_root h)
       = (root <- SSZ.hash_tree_root h finalized ;; Ok (hex root)).
Proof.
  exists beam_state_instance.
  do 4 eexists.
  split; [ exact create_beam_state_value | ].
  do 4 (split; [ reflexivity | ]).
  rewrite test_config_call, test_block_header_call, test_checkpoint_call.
  repeat split.
Qed.

(** X13.  Test 1 and test 4 of the debug script cannot tell their inputs
    apart: [SimpleTest(slot=0, proposer_index=0)] and
    [CheckpointTest(root=zeros, slot=0)] both have two all-zero leaves, so
    under the Merkleization of the engine, with any node hash, the two tests
    return the same string, the rendering of the zero hash of depth 1. *)
Theorem simple_and_checkpoint_tests_agree (h : chunk -> chunk -> chunk) :
  debug_simple_hash.test_simple_container (SSZ.hash_tree_root h)
  = debug_simple_hash.test_checkpoint (SSZ.hash_tree_root h)
  /\ debug_simple_hash.test_simple_container (SSZ.hash_tree_root h)
     = Ok (hex (zero_hash h 1)).
Proof.
  rewrite test_simple_container_call, test_checkpoint_call.
  split; reflexivity.
Qed.
